(** * CANON (canon_optimal.c): a shallow embedding and its properties

    The development follows [src/source_code/canon_optimal.c].  Machine
    integers are modelled in [Z] with their wrap-around written out, C
    arrays as total functions from an index to a cell (a freshly
    [malloc]ed block has arbitrary contents, a [calloc]ed one is zero),
    files as lists of bytes, and the text written to [stderr] as a list
    of messages. *)

From Stdlib Require Import ZArith List Bool String Ascii Lia.
Import ListNotations.
Open Scope Z_scope.

(** ** Machine integers *)

Definition u8 (z : Z) : Z := z mod 256.
Definition u32 (z : Z) : Z := z mod 4294967296.

Definition is_byte (z : Z) : Prop := 0 <= z < 256.

(** ** Arrays *)

Module Mem.

Definition array := Z -> Z.

(** [calloc]: every cell is zero. *)
Definition zeroed : array := fun _ => 0.

(** [a[i] = v] *)
Definition store (a : array) (i v : Z) : array :=
  fun j => if j =? i then v else a j.

(** the [n] cells [a[i], a[i+1], ...] *)
Fixpoint read_from (a : array) (i : Z) (n : nat) : list Z :=
  match n with
  | O => []
  | S n' => a i :: read_from a (i + 1) n'
  end.

(** the first [n] cells of [a] *)
Definition prefix (a : array) (n : Z) : list Z :=
  read_from a 0 (Z.to_nat n).

(** [memcpy(dst, src, n)], copying cell by cell from index [i] on *)
Fixpoint memcpy (dst src : array) (i : Z) (n : nat) : array :=
  match n with
  | O => dst
  | S n' => memcpy (store dst i (src i)) src (i + 1) n'
  end.

End Mem.

(** [for (i = start; ...; i++) s = body i s], run for [n] iterations. *)
Fixpoint for_loop {S : Type} (n : nat) (i : Z) (body : Z -> S -> S) (s : S) : S :=
  match n with
  | O => s
  | S n' => for_loop n' (i + 1) body (body i s)
  end.

(** ** The basis structure *)

Definition MAX_RANK : Z := 65536.

Record GF2_Basis : Type := mkBasis {
  basis : Mem.array;           (* uint8_t *basis *)
  rank : Z;                    (* uint32_t rank *)
  derivation : Mem.array;      (* uint32_t *derivation *)
  span_signature : Mem.array   (* uint64_t *span_signature, 256 cells *)
}.

(** What the two [malloc]ed blocks of [basis_init] hold before anything is
    written to them. *)
Record Junk : Type := mkJunk {
  junk_basis : Mem.array;
  junk_derivation : Mem.array
}.

Definition basis_init (j : Junk) : GF2_Basis :=
  {| basis := junk_basis j;
     rank := 0;
     derivation := junk_derivation j;
     span_signature := Mem.zeroed |}.

(** ** Span test *)

(** [int bit = 7; while (bit >= 0 && !(v & (1 << bit))) bit--;]
    Eight iterations are enough to leave the loop. *)
Fixpoint scan_down (fuel : nat) (v bit : Z) : Z :=
  match fuel with
  | O => bit
  | S fuel' =>
      if (0 <=? bit) && (Z.land v (Z.shiftl 1 bit) =? 0)
      then scan_down fuel' v (bit - 1)
      else bit
  end.

Definition highest_bit (v : Z) : Z := scan_down 8 v 7.

(** One iteration of the reduction loop of [in_span]. *)
Definition reduce_step (B : GF2_Basis) (i : Z) (residue : Z) : Z :=
  let b := basis B i in
  let bit_r := highest_bit residue in
  let bit_b := highest_bit b in
  if (bit_r =? bit_b) && (0 <=? bit_r)
  then u8 (Z.lxor residue b)
  else residue.

Definition reduce (B : GF2_Basis) (x : Z) : Z :=
  for_loop (Z.to_nat (rank B)) 0 (reduce_step B) x.

Definition in_span (x : Z) (B : GF2_Basis) : bool :=
  if rank B =? 0 then false
  else if span_signature B x =? 0 then false
  else reduce B x =? 0.

(** ** Insertion *)

Record outcome : Type := mkOutcome {
  ret : bool;                (* the value returned *)
  after : GF2_Basis;         (* the structure after the call *)
  errs : list string         (* what the call wrote to stderr *)
}.

Definition max_rank_msg : string := "Error: Maximum rank exceeded".

(** The loop that marks [basis[i] ^ x] for every [i < rank]. *)
Definition mark_step (B : GF2_Basis) (x : Z) (i : Z) (sig : Mem.array) : Mem.array :=
  let combined := u8 (Z.lxor (basis B i) x) in
  Mem.store sig combined 1.

Definition add_to_basis (B : GF2_Basis) (x position : Z) : outcome :=
  if in_span x B then mkOutcome false B []
  else if MAX_RANK <=? rank B then mkOutcome false B [max_rank_msg]
  else
    let basis1 := Mem.store (basis B) (rank B) x in
    let deriv1 := Mem.store (derivation B) (rank B) position in
    let sig1 := Mem.store (span_signature B) x 1 in
    let B1 := mkBasis basis1 (rank B) deriv1 sig1 in
    let sig2 := for_loop (Z.to_nat (rank B)) 0 (mark_step B1 x) sig1 in
    mkOutcome true (mkBasis basis1 (u32 (rank B + 1)) deriv1 sig2) [].

(** ** Compression and decompression *)

(** The loop of [canon_compress]; [i] is the 64-bit index, passed to
    [add_to_basis] through its 32-bit parameter.  The return value of
    [add_to_basis] is not looked at. *)
Fixpoint compress_loop (data : list Z) (i : Z) (B : GF2_Basis)
    (log : list string) : GF2_Basis * list string :=
  match data with
  | [] => (B, log)
  | x :: rest =>
      let o := add_to_basis B x (u32 i) in
      compress_loop rest (i + 1) (after o) (log ++ errs o)
  end.

Definition canon_compress (j : Junk) (data : list Z) : GF2_Basis * list string :=
  compress_loop data 0 (basis_init j) [].

(** [canon_decompress] returns the buffer and the size it stored in
    [*output_size]; [out0] is the fresh [malloc]ed block. *)
Definition canon_decompress (out0 : Mem.array) (B : GF2_Basis) : Mem.array * Z :=
  (Mem.memcpy out0 (basis B) 0 (Z.to_nat (rank B)), rank B).

(** The bytes of a returned buffer. *)
Definition buffer_bytes (buf : Mem.array * Z) : list Z :=
  Mem.prefix (fst buf) (snd buf).

(** ** Files *)

(** A file system: the bytes of each file that can be opened for reading,
    and which names can be opened for writing.  A name is the identity of a
    file: two names are two files. *)
Record World : Type := mkWorld {
  files : string -> option (list Z);
  writable : string -> bool
}.

(** [fopen(name, "wb")] followed by writes that leave [content], then
    [fclose]. *)
Definition write_file (w : World) (name : string) (content : list Z) : World :=
  {| files := fun n => if String.eqb n name then Some content else files w n;
     writable := writable w |}.

(** [fwrite] appends to the stream. *)
Definition fwrite (stream bytes : list Z) : list Z := stream ++ bytes.

(** [fread] of at most [n] bytes: the bytes obtained and the rest of the
    stream. *)
Definition fread (stream : list Z) (n : nat) : list Z * list Z :=
  (firstn n stream, skipn n stream).

(** A 32-bit value as it lies in memory (little-endian). *)
Definition le32 (v : Z) : list Z :=
  [v mod 256; (v / 256) mod 256; (v / 65536) mod 256; (v / 16777216) mod 256].

Definition of_le32 (bs : list Z) : Z :=
  nth 0 bs 0 + 256 * nth 1 bs 0 + 65536 * nth 2 bs 0 + 16777216 * nth 3 bs 0.

(** "CANON" *)
Definition magic : list Z := [67; 65; 78; 79; 78].

(** [strcmp] on two NUL-terminated buffers. *)
Fixpoint strcmp (s1 s2 : list Z) : Z :=
  match s1, s2 with
  | c1 :: r1, c2 :: r2 =>
      if c1 =? c2 then (if c1 =? 0 then 0 else strcmp r1 r2) else c1 - c2
  | _, _ => 0
  end.

(** What the four [fwrite] calls of [save_compressed] leave in the file. *)
Definition saved_image (B : GF2_Basis) : list Z :=
  let f0 := [] in
  let f1 := fwrite f0 magic in
  let f2 := fwrite f1 (le32 (rank B)) in
  let f3 := fwrite f2 (Mem.prefix (basis B) (rank B)) in
  let f4 := fwrite f3 (flat_map le32 (Mem.prefix (derivation B) (rank B))) in
  f4.

(** [save_compressed]: [false] when the file cannot be opened. *)
Definition save_compressed (w : World) (filename : string) (B : GF2_Basis)
  : bool * World :=
  if writable w filename
  then (true, write_file w filename (saved_image B))
  else (false, w).

(** [store] the items of [vs] at [a[i], a[i+1], ...] *)
Fixpoint store_list (a : Mem.array) (i : Z) (vs : list Z) : Mem.array :=
  match vs with
  | [] => a
  | v :: rest => store_list (Mem.store a i v) (i + 1) rest
  end.

(** The complete 4-byte items at the head of a stream, at most [n]. *)
Fixpoint items32 (n : nat) (stream : list Z) : list Z :=
  match n, stream with
  | S n', b0 :: b1 :: b2 :: b3 :: rest => of_le32 [b0; b1; b2; b3] :: items32 n' rest
  | _, _ => []
  end.

Inductive loaded : Type :=
| LoadNull                       (* NULL is returned *)
| LoadOk (B : GF2_Basis)
| LoadUndefined.                 (* a read past a buffer, or of a partial rank *)

(** [load_compressed].  The header buffer is six zero bytes before the
    read.  When the file ends right after the tag the read of the rank
    obtains nothing and the rank keeps the 0 that [basis_init] set.  A rank
    of which only one to three bytes are there has no determined value, and
    reading more than [MAX_RANK] items overruns the two blocks: both are
    [LoadUndefined]. *)
Definition load_compressed (j : Junk) (w : World) (filename : string) : loaded :=
  match files w filename with
  | None => LoadNull
  | Some f0 =>
      let '(got, f1) := fread f0 5 in
      let header := got ++ repeat 0 (6 - List.length got) in
      if negb (strcmp header (magic ++ [0]) =? 0) then LoadNull
      else
        let B := basis_init j in
        let '(rk, f2) := fread f1 4 in
        if (0 <? List.length rk)%nat && (List.length rk <? 4)%nat then LoadUndefined
        else
          let r := if (List.length rk =? 4)%nat then of_le32 rk else rank B in
          let '(bs, f3) := fread f2 (Z.to_nat r) in
          let ds := items32 (Z.to_nat r) f3 in
          if (MAX_RANK <? Z.of_nat (List.length bs)) || (MAX_RANK <? Z.of_nat (List.length ds))
          then LoadUndefined
          else LoadOk (mkBasis (store_list (basis B) 0 bs) r
                               (store_list (derivation B) 0 ds)
                               (span_signature B))
  end.

(** [read_file]: [None] when the file cannot be opened.  The block that
    receives the bytes is taken to be allocated. *)
Definition read_file (w : World) (filename : string) : option (list Z) :=
  files w filename.

(** ** The command line *)

(** [main]: the exit code and the file system it leaves; [None] when the
    run has no defined behaviour: when [load_compressed] has none, or when
    the rank that was loaded exceeds [MAX_RANK], the size of the basis block
    from which [canon_decompress] then copies.  [j] and [out0] stand for the
    contents of freshly allocated blocks. *)
Definition main (j : Junk) (out0 : Mem.array) (argv : list string) (w : World)
  : option (Z * World) :=
  if (List.length argv <? 3)%nat then Some (1, w)
  else
    let cmd := nth 1 argv EmptyString in
    let input_file := nth 2 argv EmptyString in
    if String.eqb cmd "compress" then
      let output_file := if (3 <? List.length argv)%nat then nth 3 argv EmptyString
                         else "output.canon"%string in
      match read_file w input_file with
      | None => Some (1, w)
      | Some data =>
          let B := fst (canon_compress j data) in
          Some (0, snd (save_compressed w output_file B))
      end
    else if String.eqb cmd "decompress" then
      let output_file := if (3 <? List.length argv)%nat then nth 3 argv EmptyString
                         else "output.bin"%string in
      match load_compressed j w input_file with
      | LoadNull => Some (1, w)
      | LoadUndefined => None
      | LoadOk B =>
          if MAX_RANK <? rank B then None
          else
            let out := canon_decompress out0 B in
            if writable w output_file
            then Some (0, write_file w output_file (buffer_bytes out))
            else Some (0, w)
      end
    else Some (1, w).

(** A block of zeros, for concrete runs. *)
Definition junk0 : Junk := mkJunk Mem.zeroed Mem.zeroed.

(** ** Vocabulary of the properties *)

(** XOR of the entries of [bs] picked by [sel]. *)
Fixpoint xor_selected (sel : list bool) (bs : list Z) : Z :=
  match sel, bs with
  | s :: sel', b :: bs' =>
      if s then Z.lxor b (xor_selected sel' bs') else xor_selected sel' bs'
  | _, _ => 0
  end.

(** Every XOR-combination of the entries of [bs]. *)
Fixpoint combinations (bs : list Z) : list Z :=
  match bs with
  | [] => [0]
  | b :: bs' => let cs := combinations bs' in cs ++ map (Z.lxor b) cs
  end.

(** [x] lies in the GF(2) span of [bs]. *)
Definition spans (bs : list Z) (x : Z) : bool :=
  existsb (Z.eqb x) (combinations bs).

(** The entries of a structure, in index order. *)
Definition entries (B : GF2_Basis) : list Z := Mem.prefix (basis B) (rank B).

(** A derivation record read the way the specification words it: a bitmask
    over the [r] basis indices, whose named entries are XORed. *)
Definition spec_xor_named (bs : Mem.array) (r : Z) (record : Z) : Z :=
  for_loop (Z.to_nat r) 0
    (fun k acc => if Z.testbit record k then Z.lxor acc (bs k) else acc) 0.

(** No two entries have the same highest set bit. *)
Definition distinct_pivots (B : GF2_Basis) : Prop :=
  forall i k, 0 <= i < k -> k < rank B ->
    highest_bit (basis B i) <> highest_bit (basis B k).

(** ** Concrete structures and inputs *)

(** The structure while the bytes 2, 3, 3, 3, ... are read. *)
Definition two_then_threes (B : GF2_Basis) : Prop :=
  2 <= rank B <= MAX_RANK /\
  basis B 0 = 2 /\
  (forall k, 1 <= k < rank B -> basis B k = 3) /\
  span_signature B 3 = 1.

(** The input 2, 3, 3, ... with 65536 further bytes 3, and a file system
    holding it. *)
Definition overflowing_input : list Z := 2 :: 3 :: repeat 3 (Z.to_nat 65536).

Definition overflowing_world : World :=
  {| files := fun n => if String.eqb n "in" then Some overflowing_input else None;
     writable := fun _ => true |}.

(** The structure after the first two bytes, 2 and 3. *)
Definition after_two_three : GF2_Basis :=
  after (add_to_basis (after (add_to_basis (basis_init junk0) 2 0)) 3 1).

(** A structure at capacity whose entries are all 3. *)
Definition full_of_threes : GF2_Basis :=
  mkBasis (fun _ => 3) MAX_RANK Mem.zeroed Mem.zeroed.

(** A file system with a file that is not a compressed one. *)
Definition plain_world : World :=
  {| files := fun n => if String.eqb n "a" then Some [1; 1; 2; 7] else None;
     writable := fun _ => true |}.

(** ** Further vocabulary *)

(** The units for which [add_to_basis] returns true while the loop of
    [canon_compress] runs over [data], in input order. *)
Fixpoint inserted_units (data : list Z) (i : Z) (B : GF2_Basis) : list Z :=
  match data with
  | [] => []
  | x :: rest =>
      let o := add_to_basis B x (u32 i) in
      if ret o then x :: inserted_units rest (i + 1) (after o)
      else inserted_units rest (i + 1) (after o)
  end.

(** Two structures that [in_span] and [add_to_basis] cannot tell apart:
    the same rank, the same entries and the same marks. *)
Definition same_view (B B' : GF2_Basis) : Prop :=
  rank B = rank B' /\
  (forall k, 0 <= k < rank B -> basis B k = basis B' k) /\
  (forall y, span_signature B y = span_signature B' y).

(** The name [main] gives to its output file. *)
Definition output_name (argv : list string) : string :=
  nth 3 argv (if String.eqb (nth 1 argv EmptyString) "compress"
              then "output.canon"%string else "output.bin"%string).

(** A structure and a file system for concrete runs: an input file, a
    saved structure, and one name that cannot be opened for writing. *)
Definition sample_basis : GF2_Basis := fst (canon_compress junk0 [1; 2; 2]).

Definition packed_world : World :=
  {| files := fun n =>
       if String.eqb n "in" then Some [1; 2; 2]
       else if String.eqb n "packed" then Some (saved_image sample_basis)
       else if String.eqb n "cut" then Some (magic ++ le32 3 ++ [7])
       else if String.eqb n "long" then Some (saved_image sample_basis ++ [9; 9; 9])
       else if String.eqb n "tag" then Some magic
       else None;
     writable := fun n => negb (String.eqb n "locked") |}.

(** * Properties *)

(** ** Arrays and loops *)

Lemma store_same (a : Mem.array) (i v : Z) : Mem.store a i v i = v.
Proof. unfold Mem.store. now rewrite Z.eqb_refl. Qed.

Lemma store_other (a : Mem.array) (i v k : Z) :
  k <> i -> Mem.store a i v k = a k.
Proof.
  intro H. unfold Mem.store. destruct (Z.eqb_spec k i); [contradiction | reflexivity].
Qed.

Lemma read_from_length (a : Mem.array) (n : nat) :
  forall i, List.length (Mem.read_from a i n) = n.
Proof. induction n as [|n IH]; intro i; simpl; [reflexivity | now rewrite IH]. Qed.

Lemma read_from_ext (a b : Mem.array) (n : nat) :
  forall i, (forall k, i <= k < i + Z.of_nat n -> a k = b k) ->
    Mem.read_from a i n = Mem.read_from b i n.
Proof.
  induction n as [|n IH]; intros i H; simpl; [reflexivity|].
  rewrite (H i) by lia. f_equal. apply IH. intros k Hk. apply H. lia.
Qed.

Lemma read_from_snoc (a : Mem.array) (n : nat) :
  forall i, Mem.read_from a i (S n) = Mem.read_from a i n ++ [a (i + Z.of_nat n)].
Proof.
  induction n as [|n IH]; intro i.
  - simpl. now rewrite Z.add_0_r.
  - change (Mem.read_from a i (S (S n)))
      with (a i :: Mem.read_from a (i + 1) (S n)).
    rewrite IH. replace (i + Z.of_nat (S n)) with (i + 1 + Z.of_nat n) by lia.
    reflexivity.
Qed.

Lemma read_from_nth (a : Mem.array) (n : nat) :
  forall i k, (k < n)%nat -> nth k (Mem.read_from a i n) 0 = a (i + Z.of_nat k).
Proof.
  induction n as [|n IH]; intros i k Hk; [lia|].
  destruct k as [|k]; simpl.
  - now rewrite Z.add_0_r.
  - rewrite IH by lia. f_equal. lia.
Qed.

Lemma prefix_length (a : Mem.array) (n : Z) :
  List.length (Mem.prefix a n) = Z.to_nat n.
Proof. apply read_from_length. Qed.

Lemma prefix_snoc (a : Mem.array) (r x : Z) :
  0 <= r -> Mem.prefix (Mem.store a r x) (r + 1) = Mem.prefix a r ++ [x].
Proof.
  intro Hr. unfold Mem.prefix.
  replace (Z.to_nat (r + 1)) with (S (Z.to_nat r)) by lia.
  rewrite read_from_snoc. f_equal.
  - apply read_from_ext. intros k Hk. apply store_other. lia.
  - rewrite Z.add_0_l, Z2Nat.id by lia. now rewrite store_same.
Qed.

Lemma memcpy_cell (src : Mem.array) (n : nat) :
  forall dst i k,
    Mem.memcpy dst src i n k =
    if (i <=? k) && (k <? i + Z.of_nat n) then src k else dst k.
Proof.
  induction n as [|n IH]; intros dst i k.
  - simpl. destruct (Z.leb_spec i k), (Z.ltb_spec k (i + 0)); simpl; try reflexivity; lia.
  - cbn [Mem.memcpy]. rewrite IH. unfold Mem.store.
    destruct (Z.leb_spec (i + 1) k), (Z.ltb_spec k (i + 1 + Z.of_nat n)),
             (Z.leb_spec i k), (Z.ltb_spec k (i + Z.of_nat (S n))),
             (Z.eqb_spec k i); simpl; subst; try reflexivity; lia.
Qed.

Lemma for_loop_invariant {S : Type} (P : S -> Prop) (body : Z -> S -> S) (n : nat) :
  forall i s,
    P s ->
    (forall k t, i <= k < i + Z.of_nat n -> P t -> P (body k t)) ->
    P (for_loop n i body s).
Proof.
  induction n as [|n IH]; intros i s Hs Hstep; simpl; [exact Hs|].
  apply IH.
  - apply Hstep; [lia | exact Hs].
  - intros k t Hk Ht. apply Hstep; [lia | exact Ht].
Qed.

(** ** The bit scan *)

(** The scan stops inside its eight iterations: the bit it returns is the
    one at which the loop condition fails. *)
Lemma highest_bit_exit (v : Z) :
  -1 <= highest_bit v <= 7 /\
  (highest_bit v = -1 \/ Z.land v (Z.shiftl 1 (highest_bit v)) <> 0).
Proof.
  unfold highest_bit.
  assert (G : forall fuel bit, bit = Z.of_nat fuel - 1 ->
            -1 <= scan_down fuel v bit <= bit /\
            (scan_down fuel v bit = -1 \/
             Z.land v (Z.shiftl 1 (scan_down fuel v bit)) <> 0)).
  { induction fuel as [|fuel IH]; intros bit Hbit.
    - simpl. split; [lia | left; lia].
    - cbn [scan_down].
      destruct (Z.leb_spec 0 bit); [|lia]. simpl.
      destruct (Z.eqb_spec (Z.land v (Z.shiftl 1 bit)) 0) as [E|E].
      + destruct (IH (bit - 1)) as [A C]; [lia|]. split; [lia | exact C].
      + split; [lia | right; exact E]. }
  destruct (G 8%nat 7) as [A C]; [reflexivity|]. split; [lia | exact C].
Qed.

(** ** Insertion *)

Lemma u32_small (z : Z) : 0 <= z < 4294967296 -> u32 z = z.
Proof. intro H. unfold u32. now apply Z.mod_small. Qed.

(** The two ways [add_to_basis] can end. *)
Lemma add_to_basis_cases (B : GF2_Basis) (x pos : Z) :
  let o := add_to_basis B x pos in
  (ret o = false /\ after o = B) \/
  (ret o = true /\ errs o = [] /\ in_span x B = false /\ rank B < MAX_RANK /\
   basis (after o) = Mem.store (basis B) (rank B) x /\
   derivation (after o) = Mem.store (derivation B) (rank B) pos /\
   rank (after o) = u32 (rank B + 1)).
Proof.
  unfold add_to_basis.
  destruct (in_span x B); [left; now split|].
  destruct (Z.leb_spec MAX_RANK (rank B)); [left; now split|].
  right. cbn. repeat split; auto.
Qed.

Lemma entries_after_insert (B : GF2_Basis) (x pos : Z) :
  0 <= rank B ->
  ret (add_to_basis B x pos) = true ->
  rank (after (add_to_basis B x pos)) = rank B + 1 /\
  entries (after (add_to_basis B x pos)) = entries B ++ [x].
Proof.
  intros Hr Ht.
  destruct (add_to_basis_cases B x pos) as [[F _]|(_ & _ & _ & Hlt & Hb & _ & Hrk)];
    [congruence|].
  assert (E : rank (after (add_to_basis B x pos)) = rank B + 1).
  { rewrite Hrk. apply u32_small. unfold MAX_RANK in Hlt. lia. }
  split; [exact E|].
  unfold entries. rewrite E, Hb. now apply prefix_snoc.
Qed.

(** ** The compression loop *)

Lemma compress_loop_rank (data : list Z) :
  forall i B log,
    0 <= rank B <= MAX_RANK ->
    rank B <= rank (fst (compress_loop data i B log)) <= MAX_RANK /\
    rank (fst (compress_loop data i B log)) <= rank B + Z.of_nat (List.length data).
Proof.
  induction data as [|x rest IH]; intros i B log HB.
  - simpl. lia.
  - cbn [compress_loop List.length].
    destruct (add_to_basis_cases B x (u32 i)) as [[_ E]|(T & _ & _ & Hlt & _ & _ & _)].
    + rewrite E. specialize (IH (i + 1) B (log ++ errs (add_to_basis B x (u32 i))) HB).
      lia.
    + destruct (entries_after_insert B x (u32 i)) as [E _]; [lia | exact T |].
      specialize (IH (i + 1) (after (add_to_basis B x (u32 i)))
                     (log ++ errs (add_to_basis B x (u32 i)))).
      rewrite E in IH. lia.
Qed.

(** When every unit raised the rank, the entries are the units. *)
Lemma compress_loop_full (data : list Z) :
  forall i B log,
    0 <= rank B <= MAX_RANK ->
    rank (fst (compress_loop data i B log)) = rank B + Z.of_nat (List.length data) ->
    entries (fst (compress_loop data i B log)) = entries B ++ data.
Proof.
  induction data as [|x rest IH]; intros i B log HB Hfull.
  - simpl. now rewrite app_nil_r.
  - cbn [compress_loop List.length] in *.
    set (o := add_to_basis B x (u32 i)) in *.
    destruct (add_to_basis_cases B x (u32 i)) as [[_ E]|(T & _ & _ & Hlt & _ & _ & _)];
      fold o in E || fold o in T.
    + rewrite E in Hfull.
      pose proof (compress_loop_rank rest (i + 1) B (log ++ errs o) HB). lia.
    + destruct (entries_after_insert B x (u32 i)) as [E1 E2]; [lia | exact T |].
      fold o in E1, E2.
      rewrite (IH (i + 1) (after o) (log ++ errs o)) by lia.
      rewrite E2, <- app_assoc. reflexivity.
Qed.

(** Where each entry comes from: entries already present are kept, and
    every entry added by the loop is the unit at the position stored in
    its derivation cell. *)
Lemma compress_loop_provenance (data : list Z) :
  forall i B log,
    0 <= rank B <= MAX_RANK ->
    let B' := fst (compress_loop data i B log) in
    (forall k, k < rank B ->
       basis B' k = basis B k /\ derivation B' k = derivation B k) /\
    (forall k, rank B <= k < rank B' ->
       exists p, (p < List.length data)%nat /\
                 derivation B' k = u32 (i + Z.of_nat p) /\
                 nth p data 0 = basis B' k).
Proof.
  induction data as [|x rest IH]; intros i B log HB; cbn zeta.
  - simpl. split; [auto | intros; lia].
  - cbn [compress_loop].
    set (o := add_to_basis B x (u32 i)).
    destruct (add_to_basis_cases B x (u32 i)) as [[_ E]|(T & _ & _ & Hlt & Hb & Hd & _)];
      fold o in E || fold o in T, Hb, Hd.
    + rewrite E. destruct (IH (i + 1) B (log ++ errs o) HB) as [K N].
      split; [exact K|].
      intros k Hk. destruct (N k Hk) as (p & Hp & D & V).
      exists (S p). cbn [List.length nth]. repeat split; [lia | | exact V].
      rewrite D. f_equal. lia.
    + destruct (entries_after_insert B x (u32 i)) as [E1 _]; [lia | exact T |].
      fold o in E1.
      destruct (IH (i + 1) (after o) (log ++ errs o)) as [K N]; [lia|].
      rewrite E1 in K, N. split.
      * intros k Hk. destruct (K k) as [K1 K2]; [lia|].
        rewrite K1, K2, Hb, Hd. rewrite !store_other by lia. now split.
      * intros k Hk. destruct (Z.eq_dec k (rank B)) as [->|Hne].
        -- exists 0%nat. destruct (K (rank B)) as [K1 K2]; [lia|].
           cbn [List.length nth]. rewrite K1, K2, Hb, Hd, !store_same.
           repeat split; [lia | f_equal; lia].
        -- destruct (N k) as (p & Hp & D & V); [lia|].
           exists (S p). cbn [List.length nth]. repeat split; [lia | | exact V].
           rewrite D. f_equal. lia.
Qed.

(** ** Decompression *)

Lemma decompress_bytes (out0 : Mem.array) (B : GF2_Basis) :
  buffer_bytes (canon_decompress out0 B) = entries B.
Proof.
  unfold buffer_bytes, canon_decompress, entries, Mem.prefix. cbn [fst snd].
  apply read_from_ext. intros k Hk. rewrite memcpy_cell.
  destruct (Z.leb_spec 0 k), (Z.ltb_spec k (0 + Z.of_nat (Z.to_nat (rank B))));
    simpl; try reflexivity; lia.
Qed.

(** C10: [canon_decompress] stores the rank in [*output_size] and returns a
    buffer whose bytes are the first [rank] bytes of the basis array, so the
    length of what it returns is the rank, whatever was compressed. *)
Theorem canon_decompress_copies_basis (out0 : Mem.array) (B : GF2_Basis) :
  snd (canon_decompress out0 B) = rank B /\
  buffer_bytes (canon_decompress out0 B) = Mem.prefix (basis B) (rank B) /\
  List.length (buffer_bytes (canon_decompress out0 B)) = Z.to_nat (rank B).
Proof.
  split; [reflexivity|]. rewrite decompress_bytes. split; [reflexivity|].
  apply prefix_length.
Qed.

(** C1 does not hold: a repeated byte is lost. *)
Lemma round_trip_fails :
  buffer_bytes (canon_decompress Mem.zeroed (fst (canon_compress junk0 [1; 1])))
  <> [1; 1].
Proof. vm_compute. discriminate. Qed.

(** The entries the loop adds are the units for which [add_to_basis]
    returned true, in input order. *)
Lemma compress_loop_inserted (data : list Z) :
  forall i B log,
    0 <= rank B <= MAX_RANK ->
    entries (fst (compress_loop data i B log)) = entries B ++ inserted_units data i B.
Proof.
  induction data as [|x rest IH]; intros i B log HB.
  - cbn. now rewrite app_nil_r.
  - cbn [compress_loop inserted_units].
    set (o := add_to_basis B x (u32 i)).
    destruct (add_to_basis_cases B x (u32 i)) as [[F E]|(T & _ & _ & Hlt & _)];
      fold o in F, E || fold o in T.
    + rewrite F, E. now apply IH.
    + destruct (entries_after_insert B x (u32 i)) as [E1 E2]; [lia | exact T |].
      fold o in E1, E2.
      rewrite T, (IH (i + 1) (after o) (log ++ errs o)) by lia.
      rewrite E2, <- app_assoc. reflexivity.
Qed.

(** C1, as amended: decompressing what compression produced yields the
    input bytes for which [add_to_basis] returned true, in input order,
    [rank] of them, the first input byte being the first of them; that is
    the original sequence exactly when every byte of it was inserted, that
    is when the rank equals the length of the input. *)
Theorem round_trip_iff_full_rank (j : Junk) (out0 : Mem.array) (data : list Z) :
  buffer_bytes (canon_decompress out0 (fst (canon_compress j data)))
  = inserted_units data 0 (basis_init j) /\
  List.length (buffer_bytes (canon_decompress out0 (fst (canon_compress j data))))
  = Z.to_nat (rank (fst (canon_compress j data))) /\
  hd_error (buffer_bytes (canon_decompress out0 (fst (canon_compress j data))))
  = hd_error data /\
  (buffer_bytes (canon_decompress out0 (fst (canon_compress j data))) = data <->
   rank (fst (canon_compress j data)) = Z.of_nat (List.length data)).
Proof.
  rewrite decompress_bytes. unfold canon_compress.
  assert (H0 : 0 <= rank (basis_init j) <= MAX_RANK) by (cbn; unfold MAX_RANK; lia).
  pose proof (compress_loop_rank data 0 (basis_init j) [] H0) as [Hr _].
  pose proof (compress_loop_inserted data 0 (basis_init j) [] H0) as Hi.
  change (entries (basis_init j)) with (@nil Z) in Hi. rewrite app_nil_l in Hi.
  split; [exact Hi|]. split; [apply prefix_length|]. split.
  - rewrite Hi. destruct data as [|x rest]; reflexivity.
  - split.
    + intro E. apply (f_equal (@List.length Z)) in E.
      unfold entries in E. rewrite prefix_length in E.
      change (rank (basis_init j)) with 0 in Hr. lia.
    + intro E.
      rewrite (compress_loop_full data 0 (basis_init j) [] H0) by exact E.
      reflexivity.
Qed.

(** C2 does not hold: read as the set of basis indices to XOR, the record
    of the only unit of [[1]] is empty and yields 0, not the unit; and for
    [[1; 1]] the structure has one record for two units. *)
Lemma derivation_is_not_per_unit :
  (let B := fst (canon_compress junk0 [1]) in
   spec_xor_named (basis B) (rank B) (derivation B 0) <> nth 0 [1] 0) /\
  rank (fst (canon_compress junk0 [1; 1])) < Z.of_nat (List.length [1; 1]).
Proof. split; vm_compute; [discriminate | reflexivity]. Qed.

(** C2, as amended: the structure holds one derivation cell per basis
    entry, not per unit; the cell of entry [k] is the position (as a 32-bit
    value) of the input byte that was stored as entry [k]. *)
Theorem derivation_names_position (j : Junk) (data : list Z) (k : Z) :
  0 <= k < rank (fst (canon_compress j data)) ->
  exists p, (p < List.length data)%nat /\
            derivation (fst (canon_compress j data)) k = u32 (Z.of_nat p) /\
            nth p data 0 = basis (fst (canon_compress j data)) k.
Proof.
  unfold canon_compress. intro Hk.
  assert (H0 : 0 <= rank (basis_init j) <= MAX_RANK) by (cbn; unfold MAX_RANK; lia).
  destruct (compress_loop_provenance data 0 (basis_init j) [] H0) as [_ N].
  apply N. change (rank (basis_init j)) with 0. exact Hk.
Qed.

Lemma derivation_names_position_witness :
  0 <= 1 < rank (fst (canon_compress junk0 [1; 1; 2])) /\
  exists p, (p < List.length [1; 1; 2])%nat /\
            derivation (fst (canon_compress junk0 [1; 1; 2])) 1 = u32 (Z.of_nat p) /\
            nth p [1; 1; 2] 0 = basis (fst (canon_compress junk0 [1; 1; 2])) 1.
Proof.
  assert (H : 0 <= 1 < rank (fst (canon_compress junk0 [1; 1; 2])))
    by (vm_compute; split; [discriminate | reflexivity]).
  split; [exact H | exact (derivation_names_position junk0 [1; 1; 2] 1 H)].
Defined.

(** C3: on the nine bytes 1, 2, ..., 9 the rank is nine, above the width 8
    of a byte: the bytes 3, 5, 6, 7 and 9 are stored as entries although
    each is an XOR-combination of the entries stored before it. *)
Theorem rank_nine_on_nine_bytes :
  let B := fst (canon_compress junk0 [1; 2; 3; 4; 5; 6; 7; 8; 9]) in
  rank B = 9 /\
  entries B = [1; 2; 3; 4; 5; 6; 7; 8; 9] /\
  spans [1; 2] 3 = true /\
  spans [1; 2; 3; 4] 5 = true /\
  spans [1; 2; 3; 4; 5] 6 = true /\
  spans [1; 2; 3; 4; 5; 6] 7 = true /\
  spans [1; 2; 3; 4; 5; 6; 7; 8] 9 = true.
Proof. vm_compute. repeat split. Qed.

(** X19: the rank of what [canon_compress] returns never exceeds
    [MAX_RANK] (65536), nor the number of bytes processed. *)
Theorem rank_bounded_by_max_rank (j : Junk) (data : list Z) :
  0 <= rank (fst (canon_compress j data)) <= MAX_RANK /\
  rank (fst (canon_compress j data)) <= Z.of_nat (List.length data).
Proof.
  unfold canon_compress.
  assert (H0 : 0 <= rank (basis_init j) <= MAX_RANK) by (cbn; unfold MAX_RANK; lia).
  pose proof (compress_loop_rank data 0 (basis_init j) [] H0) as [Hr Hn].
  change (rank (basis_init j)) with 0 in Hr, Hn. lia.
Qed.

(** ** Dependent units *)

(** C4: the basis [[1; 2]] spans 3 = 1 xor 2, yet [add_to_basis] returns
    true for 3 and stores it as a third entry. *)
Theorem dependent_unit_is_inserted :
  let B := fst (canon_compress junk0 [1; 2]) in
  entries B = [1; 2] /\
  xor_selected [true; true] (entries B) = 3 /\
  spans (entries B) 3 = true /\
  in_span 3 B = false /\
  ret (add_to_basis B 3 2) = true /\
  entries (after (add_to_basis B 3 2)) = [1; 2; 3].
Proof. vm_compute. repeat split. Qed.

(** Once a zero entry is in place and marked, further zero bytes change
    nothing. *)
Lemma compress_loop_zeros (n : nat) :
  forall i B log,
    rank B = 1 -> basis B 0 = 0 -> span_signature B 0 = 1 ->
    compress_loop (repeat 0 n) i B log = (B, log).
Proof.
  induction n as [|n IH]; intros i B log Hr Hb Hs; [reflexivity|].
  cbn [repeat compress_loop].
  assert (E : add_to_basis B 0 (u32 i) = mkOutcome false B []).
  { assert (R : reduce B 0 = 0).
    { unfold reduce. rewrite Hr. change (Z.to_nat 1) with 1%nat.
      cbn [for_loop]. unfold reduce_step. rewrite Hb. reflexivity. }
    unfold add_to_basis, in_span. rewrite Hr, Hs, R. reflexivity. }
  rewrite E. cbn [after errs]. rewrite app_nil_r. now apply IH.
Qed.

(** C5: on the empty structure the zero byte is inserted, and an input of
    one or more zero bytes ends with rank 1 and the single entry 0. *)
Theorem zero_unit_is_inserted (j : Junk) (n : nat) :
  ret (add_to_basis (basis_init j) 0 0) = true /\
  rank (fst (canon_compress j (repeat 0 (S n)))) = 1 /\
  entries (fst (canon_compress j (repeat 0 (S n)))) = [0].
Proof.
  split; [reflexivity|].
  unfold canon_compress. cbn [repeat compress_loop].
  rewrite compress_loop_zeros; [split; reflexivity | reflexivity..].
Qed.

(** C6 does not hold: after inserting 2 and then 3 the two entries have the
    same highest bit, and the entry stored for 3 is 3 itself although
    reducing 3 by the entry 2 leaves 1. *)
Lemma pivots_shared_and_raw_unit_stored :
  let B1 := fst (canon_compress junk0 [2]) in
  let o := add_to_basis B1 3 1 in
  ret o = true /\
  ~ distinct_pivots (after o) /\
  reduce B1 3 = 1 /\
  basis (after o) (rank B1) = 3.
Proof.
  cbn zeta. split; [reflexivity|]. split; [|split; reflexivity].
  intro H. apply (H 0 1); [lia | reflexivity | reflexivity].
Qed.

(** C6, as amended: an insert that returns true stores the unit itself at
    index [rank], leaves every other entry as it was and raises the rank by
    one; an insert that returns false leaves the structure unchanged. *)
Theorem insert_appends_raw_unit (B : GF2_Basis) (x pos : Z) :
  0 <= rank B ->
  if ret (add_to_basis B x pos)
  then basis (after (add_to_basis B x pos)) = Mem.store (basis B) (rank B) x /\
       basis (after (add_to_basis B x pos)) (rank B) = x /\
       rank (after (add_to_basis B x pos)) = rank B + 1
  else after (add_to_basis B x pos) = B.
Proof.
  intro Hr.
  destruct (add_to_basis_cases B x pos) as [[F E]|(T & _ & _ & Hlt & Hb & _ & _)].
  - rewrite F. exact E.
  - destruct (entries_after_insert B x pos Hr T) as [E _].
    rewrite T, Hb, store_same. repeat split. exact E.
Qed.

Lemma insert_appends_raw_unit_witness :
  0 <= rank (fst (canon_compress junk0 [2])) /\
  (if ret (add_to_basis (fst (canon_compress junk0 [2])) 3 1)
   then basis (after (add_to_basis (fst (canon_compress junk0 [2])) 3 1))
        = Mem.store (basis (fst (canon_compress junk0 [2])))
                    (rank (fst (canon_compress junk0 [2]))) 3 /\
        basis (after (add_to_basis (fst (canon_compress junk0 [2])) 3 1))
              (rank (fst (canon_compress junk0 [2]))) = 3 /\
        rank (after (add_to_basis (fst (canon_compress junk0 [2])) 3 1))
        = rank (fst (canon_compress junk0 [2])) + 1
   else after (add_to_basis (fst (canon_compress junk0 [2])) 3 1)
        = fst (canon_compress junk0 [2])).
Proof.
  assert (H : 0 <= rank (fst (canon_compress junk0 [2])))
    by (vm_compute; discriminate).
  split; [exact H | exact (insert_appends_raw_unit _ 3 1 H)].
Defined.

(** ** Reaching the capacity *)

Lemma signature_after_insert (B : GF2_Basis) (x pos : Z) :
  ret (add_to_basis B x pos) = true ->
  span_signature (after (add_to_basis B x pos)) x = 1.
Proof.
  unfold add_to_basis.
  destruct (in_span x B); [discriminate|].
  destruct (MAX_RANK <=? rank B); [discriminate|].
  intros _. cbn [after span_signature].
  apply (for_loop_invariant (fun sig : Mem.array => sig x = 1)).
  - apply store_same.
  - intros k sig _ Hsig. unfold mark_step, Mem.store.
    destruct (x =? _); [reflexivity | exact Hsig].
Qed.

Lemma reduce_three (B : GF2_Basis) : two_then_threes B -> reduce B 3 = 1.
Proof.
  intros (Hr & H0 & Hk & _). unfold reduce.
  replace (Z.to_nat (rank B)) with (S (Z.to_nat (rank B - 1))) by lia.
  cbn [for_loop].
  assert (E : reduce_step B 0 3 = 1) by (unfold reduce_step; rewrite H0; reflexivity).
  rewrite E.
  apply (for_loop_invariant (fun r => r = 1)); [reflexivity|].
  intros k t Hrange ->. unfold reduce_step. rewrite Hk by lia. reflexivity.
Qed.

Lemma in_span_three (B : GF2_Basis) : two_then_threes B -> in_span 3 B = false.
Proof.
  intro H. pose proof (reduce_three B H) as R. destruct H as (Hr & _ & _ & Hs).
  unfold in_span. rewrite Hs, R.
  destruct (Z.eqb_spec (rank B) 0); [lia | reflexivity].
Qed.

Lemma insert_three_below (B : GF2_Basis) (pos : Z) :
  two_then_threes B -> rank B < MAX_RANK ->
  errs (add_to_basis B 3 pos) = [] /\
  rank (after (add_to_basis B 3 pos)) = rank B + 1 /\
  two_then_threes (after (add_to_basis B 3 pos)).
Proof.
  intros H Hlt. pose proof (in_span_three B H) as Hs.
  destruct H as (Hr & H0 & Hk & _).
  assert (T : ret (add_to_basis B 3 pos) = true).
  { unfold add_to_basis. rewrite Hs.
    destruct (Z.leb_spec MAX_RANK (rank B)); [lia | reflexivity]. }
  destruct (add_to_basis_cases B 3 pos) as [[F _]|(_ & He & _ & _ & Hb & _ & _)];
    [congruence|].
  destruct (entries_after_insert B 3 pos) as [E _]; [lia | exact T |].
  split; [exact He|]. split; [exact E|].
  unfold two_then_threes. rewrite E, Hb. repeat split; try lia.
  - rewrite store_other by lia. exact H0.
  - intros k Hrange. destruct (Z.eq_dec k (rank B)) as [->|Hne].
    + apply store_same.
    + rewrite store_other by exact Hne. apply Hk. lia.
  - now apply signature_after_insert.
Qed.

Lemma insert_at_capacity (B : GF2_Basis) (x pos : Z) :
  MAX_RANK <= rank B -> in_span x B = false ->
  add_to_basis B x pos = mkOutcome false B [max_rank_msg].
Proof.
  intros Hr Hs. unfold add_to_basis. rewrite Hs.
  destruct (Z.leb_spec MAX_RANK (rank B)); [reflexivity | lia].
Qed.

Lemma compress_loop_threes (n : nat) :
  forall i B log,
    two_then_threes B ->
    two_then_threes (fst (compress_loop (repeat 3 n) i B log)) /\
    rank (fst (compress_loop (repeat 3 n) i B log))
      = Z.min (rank B + Z.of_nat n) MAX_RANK /\
    snd (compress_loop (repeat 3 n) i B log)
      = log ++ repeat max_rank_msg (Z.to_nat (rank B + Z.of_nat n - MAX_RANK)).
Proof.
  induction n as [|n IH]; intros i B log H.
  - cbn [repeat compress_loop fst snd]. destruct H as (Hr & Hrest).
    split; [split; [exact Hr | exact Hrest]|]. split; [lia|].
    replace (Z.to_nat (rank B + Z.of_nat 0 - MAX_RANK)) with 0%nat by lia.
    now rewrite app_nil_r.
  - cbn [repeat compress_loop].
    assert (Hr : 2 <= rank B <= MAX_RANK) by apply H.
    destruct (Z.lt_ge_cases (rank B) MAX_RANK) as [Hlt|Hge].
    + destruct (insert_three_below B (u32 i) H Hlt) as (He & E & H').
      rewrite He, app_nil_r.
      destruct (IH (i + 1) (after (add_to_basis B 3 (u32 i))) log H') as (A & R & L).
      split; [exact A|]. rewrite R, L, E. split; [lia|].
      do 2 f_equal. lia.
    + rewrite (insert_at_capacity B 3 (u32 i) Hge (in_span_three B H)).
      cbn [after errs].
      destruct (IH (i + 1) B (log ++ [max_rank_msg]) H) as (A & R & L).
      split; [exact A|]. rewrite R, L. split; [lia|].
      replace (Z.to_nat (rank B + Z.of_nat (S n) - MAX_RANK))
        with (S (Z.to_nat (rank B + Z.of_nat n - MAX_RANK))) by lia.
      cbn [repeat]. now rewrite <- app_assoc.
Qed.

(** ** The command line *)

Lemma main_compress (j : Junk) (out0 : Mem.array) (w : World)
    (prog input : string) (data : list Z) :
  files w input = Some data ->
  writable w "output.canon" = true ->
  main j out0 [prog; "compress"%string; input] w
  = Some (0, write_file w "output.canon" (saved_image (fst (canon_compress j data)))).
Proof.
  intros Hf Hw. unfold main, read_file, save_compressed.
  cbn [List.length Nat.ltb Nat.leb nth].
  change (String.eqb "compress" "compress") with true. cbv iota.
  rewrite Hf, Hw. reflexivity.
Qed.

Lemma compress_two_three (rest : list Z) :
  canon_compress junk0 (2 :: 3 :: rest) = compress_loop rest 2 after_two_three [].
Proof. reflexivity. Qed.

Lemma two_then_threes_start : two_then_threes after_two_three.
Proof.
  unfold two_then_threes. repeat split; try (vm_compute; congruence).
  intros k Hk. assert (k = 1) as ->; [|reflexivity].
  change (rank after_two_three) with 2 in Hk. lia.
Qed.

Lemma compress_overflowing_input :
  rank (fst (canon_compress junk0 overflowing_input)) = MAX_RANK /\
  snd (canon_compress junk0 overflowing_input) = [max_rank_msg; max_rank_msg].
Proof.
  unfold overflowing_input. rewrite compress_two_three.
  destruct (compress_loop_threes (Z.to_nat 65536) 2 after_two_three []
              two_then_threes_start) as (_ & R & L).
  rewrite R, L. change (rank after_two_three) with 2. rewrite Z2Nat.id by lia.
  split; reflexivity.
Qed.

(** C7 does not hold: on an input that fills the structure and then brings
    two more units, the error is written twice, so the loop went on after
    the first; the run still saves a file and exits with code 0, and what
    it saves has rank 65536 for 65538 units read. *)
Lemma capacity_error_is_not_fatal :
  snd (canon_compress junk0 overflowing_input) = [max_rank_msg; max_rank_msg] /\
  rank (fst (canon_compress junk0 overflowing_input)) = MAX_RANK /\
  main junk0 Mem.zeroed ["canon"; "compress"; "in"]%string overflowing_world
  = Some (0, write_file overflowing_world "output.canon"
               (saved_image (fst (canon_compress junk0 overflowing_input)))).
Proof.
  destruct compress_overflowing_input as [R L].
  split; [exact L|]. split; [exact R|].
  apply main_compress; reflexivity.
Qed.

(** C7, as amended: when the rank has reached [MAX_RANK] and the unit is
    not found in the span, [add_to_basis] writes the error message to
    stderr, returns false and leaves the structure as it was;
    [canon_compress] goes on with the remaining units on that structure. *)
Theorem capacity_error_is_reported_and_skipped
    (B : GF2_Basis) (x i : Z) (rest : list Z) (log : list string) :
  MAX_RANK <= rank B ->
  in_span x B = false ->
  add_to_basis B x (u32 i) = mkOutcome false B [max_rank_msg] /\
  compress_loop (x :: rest) i B log
  = compress_loop rest (i + 1) B (log ++ [max_rank_msg]).
Proof.
  intros Hr Hs. pose proof (insert_at_capacity B x (u32 i) Hr Hs) as E.
  split; [exact E|]. cbn [compress_loop]. rewrite E. reflexivity.
Qed.

Lemma capacity_error_is_reported_and_skipped_witness :
  MAX_RANK <= rank full_of_threes /\
  in_span 4 full_of_threes = false /\
  add_to_basis full_of_threes 4 (u32 70000)
  = mkOutcome false full_of_threes [max_rank_msg] /\
  compress_loop [4; 5] 70000 full_of_threes []
  = compress_loop [5] (70000 + 1) full_of_threes ([] ++ [max_rank_msg]).
Proof.
  assert (Hr : MAX_RANK <= rank full_of_threes) by (vm_compute; discriminate).
  assert (Hs : in_span 4 full_of_threes = false) by reflexivity.
  split; [exact Hr|]. split; [exact Hs|].
  exact (capacity_error_is_reported_and_skipped full_of_threes 4 70000 [5] [] Hr Hs).
Defined.

(** ** The magic tag *)

Ltac split_eqb :=
  repeat match goal with
         | H : context [Z.eqb ?a ?b] |- _ => destruct (Z.eqb_spec a b); subst
         end.

(** The comparison of [load_compressed] succeeds only on the five bytes of
    the tag. *)
Lemma strcmp_header (f : list Z) :
  strcmp (firstn 5 f ++ repeat 0 (6 - List.length (firstn 5 f))) (magic ++ [0]) = 0 ->
  firstn 5 f = magic.
Proof.
  unfold magic.
  destruct f as [|c0 [|c1 [|c2 [|c3 [|c4 rest]]]]]; cbn; intro H;
    split_eqb; try reflexivity; try lia; try discriminate.
Qed.

Lemma load_bad_magic (j : Junk) (w : World) (input : string) (bytes : list Z) :
  files w input = Some bytes ->
  firstn 5 bytes <> magic ->
  load_compressed j w input = LoadNull.
Proof.
  intros Hf Hm. unfold load_compressed, fread. rewrite Hf.
  destruct (Z.eqb_spec
              (strcmp (firstn 5 bytes ++ repeat 0 (6 - List.length (firstn 5 bytes)))
                      (magic ++ [0])) 0) as [E|E]; [|reflexivity].
  elim Hm. now apply strcmp_header.
Qed.

(** C8: when the first five bytes of the input file are not "CANON",
    [load_compressed] returns NULL and the decompress command exits with
    code 1, leaving the file system as it found it. *)
Theorem bad_magic_aborts (j : Junk) (out0 : Mem.array) (w : World)
    (prog input : string) (rest : list string) (bytes : list Z) :
  files w input = Some bytes ->
  firstn 5 bytes <> magic ->
  load_compressed j w input = LoadNull /\
  main j out0 (prog :: "decompress"%string :: input :: rest) w = Some (1, w).
Proof.
  intros Hf Hm. pose proof (load_bad_magic j w input bytes Hf Hm) as E.
  split; [exact E|]. unfold main.
  cbn [List.length Nat.ltb Nat.leb nth].
  change (String.eqb "decompress" "compress") with false.
  change (String.eqb "decompress" "decompress") with true. cbv iota.
  rewrite E. reflexivity.
Qed.

Lemma bad_magic_aborts_witness :
  files plain_world "a" = Some [1; 1; 2; 7] /\
  firstn 5 [1; 1; 2; 7] <> magic /\
  load_compressed junk0 plain_world "a" = LoadNull /\
  main junk0 Mem.zeroed ["canon"; "decompress"; "a"; "out"]%string plain_world
  = Some (1, plain_world).
Proof.
  assert (Hf : files plain_world "a" = Some [1; 1; 2; 7]) by reflexivity.
  assert (Hm : firstn 5 [1; 1; 2; 7] <> magic) by (cbn; discriminate).
  split; [exact Hf|]. split; [exact Hm|].
  exact (bad_magic_aborts junk0 Mem.zeroed plain_world "canon" "a" ["out"%string]
           [1; 1; 2; 7] Hf Hm).
Defined.

(** ** The saved file *)




(** ** What the span test does establish *)

Lemma lxor_byte (a b : Z) : is_byte a -> is_byte b -> is_byte (Z.lxor a b).
Proof.
  unfold is_byte. intros Ha Hb.
  assert (N : 0 <= Z.lxor a b) by (apply Z.lxor_nonneg; lia).
  split; [exact N|].
  destruct (Z.eq_dec (Z.lxor a b) 0) as [->|Hne]; [lia|].
  change 256 with (2 ^ 8). apply Z.log2_lt_pow2; [lia|].
  assert (La : Z.log2 a < 8).
  { destruct (Z.eq_dec a 0) as [->|]; [cbn; lia|]. apply Z.log2_lt_pow2; cbn; lia. }
  assert (Lb : Z.log2 b < 8).
  { destruct (Z.eq_dec b 0) as [->|]; [cbn; lia|]. apply Z.log2_lt_pow2; cbn; lia. }
  pose proof (Z.log2_lxor a b (proj1 Ha) (proj1 Hb)). lia.
Qed.

Lemma zero_in_combinations (bs : list Z) : In 0 (combinations bs).
Proof.
  induction bs as [|b bs IH]; cbn; [now left|]. apply in_or_app. now left.
Qed.

Lemma selected_in_combinations (bs : list Z) :
  forall sel, In (xor_selected sel bs) (combinations bs).
Proof.
  induction bs as [|b bs IH]; intros [|s sel].
  - now left.
  - now left.
  - apply (zero_in_combinations (b :: bs)).
  - cbn [xor_selected combinations]. apply in_or_app.
    destruct s; [right; apply in_map | left]; apply IH.
Qed.

Lemma spans_selected (bs : list Z) (sel : list bool) :
  spans bs (xor_selected sel bs) = true.
Proof.
  unfold spans. apply existsb_exists. exists (xor_selected sel bs).
  split; [apply selected_in_combinations | apply Z.eqb_refl].
Qed.

(** The residue is the unit XORed with some of the entries. *)
Lemma reduce_loop_combination (B : GF2_Basis) (n : nat) :
  forall i r,
    is_byte r ->
    (forall k, i <= k < i + Z.of_nat n -> is_byte (basis B k)) ->
    exists sel,
      for_loop n i (reduce_step B) r
      = Z.lxor r (xor_selected sel (Mem.read_from (basis B) i n)).
Proof.
  induction n as [|n IH]; intros i r Hr Hb.
  - exists []. cbn. now rewrite Z.lxor_0_r.
  - cbn [for_loop Mem.read_from].
    assert (Hbi : is_byte (basis B i)) by (apply Hb; lia).
    assert (Hrest : forall k, i + 1 <= k < i + 1 + Z.of_nat n -> is_byte (basis B k))
      by (intros k Hk; apply Hb; lia).
    unfold reduce_step at 2.
    destruct ((highest_bit r =? highest_bit (basis B i)) && (0 <=? highest_bit r)).
    + pose proof (lxor_byte r (basis B i) Hr Hbi) as Hx.
      assert (E : u8 (Z.lxor r (basis B i)) = Z.lxor r (basis B i))
        by (unfold u8; apply Z.mod_small; exact Hx).
      rewrite E. destruct (IH (i + 1) _ Hx Hrest) as [sel Hsel].
      exists (true :: sel). rewrite Hsel. cbn [xor_selected].
      now rewrite Z.lxor_assoc.
    + destruct (IH (i + 1) r Hr Hrest) as [sel Hsel].
      exists (false :: sel). exact Hsel.
Qed.

(** When [in_span] answers true on a structure of bytes, the unit is an
    XOR-combination of the entries. *)
Lemma in_span_sound (B : GF2_Basis) (x : Z) :
  is_byte x ->
  (forall k, 0 <= k < rank B -> is_byte (basis B k)) ->
  in_span x B = true ->
  spans (entries B) x = true.
Proof.
  intros Hx Hb. unfold in_span.
  destruct (rank B =? 0); [discriminate|].
  destruct (span_signature B x =? 0); [discriminate|].
  intro R. apply Z.eqb_eq in R. unfold reduce in R.
  destruct (reduce_loop_combination B (Z.to_nat (rank B)) 0 x Hx) as [sel Hsel].
  { intros k Hk. apply Hb. lia. }
  rewrite Hsel in R. apply Z.lxor_eq in R. rewrite R. apply spans_selected.
Qed.

(** ** The bit scan computes the highest set bit *)

Lemma highest_bit_table :
  forallb (fun n => highest_bit (Z.of_nat n)
                    =? (if Z.of_nat n =? 0 then -1 else Z.log2 (Z.of_nat n)))
          (seq 0 256) = true.
Proof. vm_compute. reflexivity. Qed.

(** X1: on a byte the scan of [in_span] returns -1 for zero and the index of
    the highest set bit otherwise. *)
Theorem highest_bit_is_log2 (v : Z) :
  is_byte v ->
  highest_bit v = (if v =? 0 then -1 else Z.log2 v).
Proof.
  intros [Hlo Hhi].
  pose proof highest_bit_table as T. rewrite forallb_forall in T.
  specialize (T (Z.to_nat v)). rewrite Z2Nat.id in T by exact Hlo.
  apply Z.eqb_eq, T, in_seq. lia.
Qed.

Lemma highest_bit_is_log2_witness :
  is_byte 44 /\ highest_bit 44 = (if 44 =? 0 then -1 else Z.log2 44).
Proof.
  assert (H : is_byte 44) by (unfold is_byte; lia).
  split; [exact H | exact (highest_bit_is_log2 44 H)].
Defined.

(** ** Spans *)

Lemma combinations_app_l (bs ys : list Z) :
  forall y, In y (combinations bs) -> In y (combinations (bs ++ ys)).
Proof.
  induction bs as [|b bs IH]; intros y Hy.
  - destruct Hy as [<-|[]]. apply zero_in_combinations.
  - cbn [combinations app] in *. apply in_app_or in Hy. apply in_or_app.
    destruct Hy as [Hy|Hy]; [left; now apply IH|].
    right. apply in_map_iff in Hy. destruct Hy as (c & <- & Hc).
    apply in_map. now apply IH.
Qed.

Lemma last_in_combinations (bs : list Z) (x : Z) :
  In x (combinations (bs ++ [x])).
Proof.
  induction bs as [|b bs IH]; cbn [combinations app].
  - right. left. apply Z.lxor_0_r.
  - apply in_or_app. now left.
Qed.

Lemma spans_In (bs : list Z) (x : Z) :
  spans bs x = true <-> In x (combinations bs).
Proof.
  unfold spans. rewrite existsb_exists. split.
  - intros (y & Hy & E). apply Z.eqb_eq in E. now subst.
  - intro H. exists x. split; [exact H | apply Z.eqb_refl].
Qed.

Lemma spans_app_l (bs ys : list Z) (x : Z) :
  spans bs x = true -> spans (bs ++ ys) x = true.
Proof. rewrite !spans_In. apply combinations_app_l. Qed.

Lemma spans_last (bs : list Z) (x : Z) : spans (bs ++ [x]) x = true.
Proof. apply spans_In, last_in_combinations. Qed.

(** A refusal below the capacity comes from the span test. *)
Lemma refused_below_capacity (B : GF2_Basis) (x pos : Z) :
  rank B < MAX_RANK ->
  ret (add_to_basis B x pos) = false ->
  in_span x B = true.
Proof.
  intros Hlt. unfold add_to_basis.
  destruct (in_span x B); [reflexivity|].
  destruct (Z.leb_spec MAX_RANK (rank B)); [lia | discriminate].
Qed.

(** X2: below the capacity, a unit that [add_to_basis] refuses is an
    XOR-combination of the entries. *)
Theorem refused_unit_is_dependent (B : GF2_Basis) (x pos : Z) :
  is_byte x ->
  (forall k, 0 <= k < rank B -> is_byte (basis B k)) ->
  rank B < MAX_RANK ->
  ret (add_to_basis B x pos) = false ->
  spans (entries B) x = true.
Proof.
  intros Hx Hb Hlt Hret. apply in_span_sound; [exact Hx | exact Hb |].
  now apply (refused_below_capacity B x pos).
Qed.

Lemma refused_unit_is_dependent_witness :
  is_byte 3 /\
  (forall k, 0 <= k < rank (fst (canon_compress junk0 [2; 1])) ->
             is_byte (basis (fst (canon_compress junk0 [2; 1])) k)) /\
  rank (fst (canon_compress junk0 [2; 1])) < MAX_RANK /\
  ret (add_to_basis (fst (canon_compress junk0 [2; 1])) 3 2) = false /\
  spans (entries (fst (canon_compress junk0 [2; 1]))) 3 = true.
Proof.
  assert (Hx : is_byte 3) by (unfold is_byte; lia).
  assert (Hb : forall k, 0 <= k < rank (fst (canon_compress junk0 [2; 1])) ->
                         is_byte (basis (fst (canon_compress junk0 [2; 1])) k)).
  { intros k Hk. change (rank (fst (canon_compress junk0 [2; 1]))) with 2 in Hk.
    assert (k = 0 \/ k = 1) as [-> | ->] by lia; vm_compute; split; congruence. }
  assert (Hlt : rank (fst (canon_compress junk0 [2; 1])) < MAX_RANK) by reflexivity.
  assert (Hret : ret (add_to_basis (fst (canon_compress junk0 [2; 1])) 3 2) = false)
    by reflexivity.
  repeat (split; [assumption|]).
  exact (refused_unit_is_dependent _ 3 2 Hx Hb Hlt Hret).
Defined.

(** ** The entries only grow *)

Lemma compress_loop_extends (data : list Z) :
  forall i B log,
    0 <= rank B <= MAX_RANK ->
    exists more, entries (fst (compress_loop data i B log)) = entries B ++ more.
Proof.
  induction data as [|x rest IH]; intros i B log HB.
  - exists []. cbn. now rewrite app_nil_r.
  - cbn [compress_loop].
    destruct (add_to_basis_cases B x (u32 i)) as [[_ E]|(T & _ & _ & Hlt & _)].
    + rewrite E. now apply IH.
    + destruct (entries_after_insert B x (u32 i)) as [E1 E2]; [lia | exact T |].
      destruct (IH (i + 1) (after (add_to_basis B x (u32 i)))
                   (log ++ errs (add_to_basis B x (u32 i)))) as [more Hm]; [lia|].
      exists (x :: more). rewrite Hm, E2, <- app_assoc. reflexivity.
Qed.

Lemma bytes_after_insert (B : GF2_Basis) (x pos : Z) :
  is_byte x ->
  (forall k, 0 <= k < rank B -> is_byte (basis B k)) ->
  0 <= rank B ->
  forall k, 0 <= k < rank (after (add_to_basis B x pos)) ->
            is_byte (basis (after (add_to_basis B x pos)) k).
Proof.
  intros Hx Hb Hr k Hk.
  destruct (add_to_basis_cases B x pos) as [[_ E]|(T & _ & _ & Hlt & Hbs & _)].
  - rewrite E in *. now apply Hb.
  - destruct (entries_after_insert B x pos Hr T) as [E1 _]. rewrite E1 in Hk.
    rewrite Hbs. destruct (Z.eq_dec k (rank B)) as [->|Hne].
    + now rewrite store_same.
    + rewrite store_other by exact Hne. apply Hb. lia.
Qed.

Lemma rank_after_insert (B : GF2_Basis) (x pos : Z) :
  0 <= rank B <= MAX_RANK ->
  rank B <= rank (after (add_to_basis B x pos)) <= MAX_RANK.
Proof.
  intro HB.
  destruct (add_to_basis_cases B x pos) as [[_ E]|(T & _ & _ & Hlt & _)].
  - rewrite E. lia.
  - destruct (entries_after_insert B x pos) as [E1 _]; [lia | exact T | lia].
Qed.

Lemma compress_loop_covers (data : list Z) :
  forall i B log,
    Forall is_byte data ->
    (forall k, 0 <= k < rank B -> is_byte (basis B k)) ->
    0 <= rank B <= MAX_RANK ->
    rank (fst (compress_loop data i B log)) < MAX_RANK ->
    Forall (fun x => spans (entries (fst (compress_loop data i B log))) x = true) data.
Proof.
  induction data as [|x rest IH]; intros i B log Hd Hb HB Hend; [constructor|].
  inversion Hd as [|? ? Hx Hrest]; subst.
  cbn [compress_loop] in *.
  set (o := add_to_basis B x (u32 i)) in *.
  pose proof (rank_after_insert B x (u32 i) HB) as HB1. fold o in HB1.
  pose proof (bytes_after_insert B x (u32 i) Hx Hb (proj1 HB)) as Hb1. fold o in Hb1.
  assert (HB1' : 0 <= rank (after o) <= MAX_RANK) by lia.
  destruct (compress_loop_extends rest (i + 1) (after o) (log ++ errs o) HB1')
    as [more Hm].
  pose proof (compress_loop_rank rest (i + 1) (after o) (log ++ errs o) HB1')
    as [Hmono _].
  constructor.
  - rewrite Hm. apply spans_app_l.
    destruct (ret o) eqn:T.
    + destruct (entries_after_insert B x (u32 i) (proj1 HB) T) as [_ E2].
      fold o in E2. rewrite E2. apply spans_last.
    + assert (E : after o = B).
      { destruct (add_to_basis_cases B x (u32 i)) as [[_ E]|(T' & _)];
          fold o in E || fold o in T'; [exact E | congruence]. }
      rewrite E in *. apply in_span_sound; [exact Hx | exact Hb |].
      apply (refused_below_capacity B x (u32 i)); [lia | exact T].
  - apply IH; assumption.
Qed.

(** X3: when the bytes of the input are compressed without reaching the
    capacity, every input byte is an XOR-combination of the entries of the
    structure returned. *)
Theorem input_lies_in_span (j : Junk) (data : list Z) :
  Forall is_byte data ->
  rank (fst (canon_compress j data)) < MAX_RANK ->
  Forall (fun x => spans (entries (fst (canon_compress j data))) x = true) data.
Proof.
  intros Hd Hend. unfold canon_compress in *.
  apply compress_loop_covers; try assumption.
  - cbn. intros k Hk. lia.
  - cbn. unfold MAX_RANK. lia.
Qed.

Lemma input_lies_in_span_witness :
  Forall is_byte [6; 3; 5; 6; 0] /\
  rank (fst (canon_compress junk0 [6; 3; 5; 6; 0])) < MAX_RANK /\
  Forall (fun x => spans (entries (fst (canon_compress junk0 [6; 3; 5; 6; 0]))) x = true)
         [6; 3; 5; 6; 0].
Proof.
  assert (Hd : Forall is_byte [6; 3; 5; 6; 0])
    by (repeat constructor; unfold is_byte; lia).
  assert (Hend : rank (fst (canon_compress junk0 [6; 3; 5; 6; 0])) < MAX_RANK)
    by reflexivity.
  split; [exact Hd|]. split; [exact Hend|].
  exact (input_lies_in_span junk0 [6; 3; 5; 6; 0] Hd Hend).
Defined.

(** ** Compressing in two parts *)

Lemma compress_loop_app (a b : list Z) :
  forall i B log,
    compress_loop (a ++ b) i B log
    = compress_loop b (i + Z.of_nat (List.length a))
        (fst (compress_loop a i B log)) (snd (compress_loop a i B log)).
Proof.
  induction a as [|x a IH]; intros i B log.
  - cbn. now rewrite Z.add_0_r.
  - cbn [app compress_loop List.length]. rewrite IH. f_equal. lia.
Qed.

Lemma compress_loop_log (data : list Z) :
  forall i B log,
    exists more, snd (compress_loop data i B log) = log ++ more.
Proof.
  induction data as [|x rest IH]; intros i B log.
  - exists []. cbn. now rewrite app_nil_r.
  - cbn [compress_loop].
    destruct (IH (i + 1) (after (add_to_basis B x (u32 i)))
                 (log ++ errs (add_to_basis B x (u32 i)))) as [more Hm].
    exists (errs (add_to_basis B x (u32 i)) ++ more). rewrite Hm.
    now rewrite app_assoc.
Qed.

(** X4: compressing [a ++ b] is compressing [a] and going on with [b] from
    position [length a]; so the entries, the rank and the error output
    obtained for a prefix of the input are kept when more input follows. *)
Theorem compress_prefix_stable (j : Junk) (a b : list Z) :
  canon_compress j (a ++ b)
  = compress_loop b (Z.of_nat (List.length a))
      (fst (canon_compress j a)) (snd (canon_compress j a)) /\
  (exists more, entries (fst (canon_compress j (a ++ b)))
                = entries (fst (canon_compress j a)) ++ more) /\
  (exists more, snd (canon_compress j (a ++ b))
                = snd (canon_compress j a) ++ more) /\
  rank (fst (canon_compress j a)) <= rank (fst (canon_compress j (a ++ b)))
    <= rank (fst (canon_compress j a)) + Z.of_nat (List.length b).
Proof.
  assert (E : canon_compress j (a ++ b)
              = compress_loop b (Z.of_nat (List.length a))
                  (fst (canon_compress j a)) (snd (canon_compress j a))).
  { unfold canon_compress. now rewrite compress_loop_app. }
  assert (H0 : 0 <= rank (basis_init j) <= MAX_RANK) by (cbn; unfold MAX_RANK; lia).
  assert (Ha : 0 <= rank (fst (canon_compress j a)) <= MAX_RANK).
  { pose proof (compress_loop_rank a 0 (basis_init j) [] H0) as [Hr _].
    unfold canon_compress. cbn in Hr. lia. }
  split; [exact E|]. rewrite E. split; [|split].
  - now apply compress_loop_extends.
  - apply compress_loop_log.
  - pose proof (compress_loop_rank b (Z.of_nat (List.length a))
                  (fst (canon_compress j a)) (snd (canon_compress j a)) Ha). lia.
Qed.

(** ** The first byte *)

(** X5: the first byte of a non-empty input is always stored as entry 0,
    with derivation cell 0, whatever its value. *)
Theorem first_byte_is_entry_zero (j : Junk) (x : Z) (rest : list Z) :
  1 <= rank (fst (canon_compress j (x :: rest))) /\
  basis (fst (canon_compress j (x :: rest))) 0 = x /\
  derivation (fst (canon_compress j (x :: rest))) 0 = 0.
Proof.
  unfold canon_compress. cbn [compress_loop].
  set (o := add_to_basis (basis_init j) x (u32 0)).
  assert (Hr : rank (after o) = 1) by reflexivity.
  assert (Hb : basis (after o) 0 = x) by reflexivity.
  assert (Hd : derivation (after o) 0 = 0) by reflexivity.
  assert (H1 : 0 <= rank (after o) <= MAX_RANK) by (rewrite Hr; unfold MAX_RANK; lia).
  pose proof (compress_loop_rank rest (0 + 1) (after o) ([] ++ errs o) H1) as [Hm _].
  destruct (compress_loop_provenance rest (0 + 1) (after o) ([] ++ errs o) H1) as [K _].
  destruct (K 0) as [K1 K2]; [lia|].
  rewrite K1, K2, Hb, Hd. repeat split. lia.
Qed.

(** ** Positions *)

Lemma compress_loop_positions (data : list Z) :
  forall i B log,
    0 <= rank B <= MAX_RANK ->
    0 <= i ->
    i + Z.of_nat (List.length data) <= 4294967296 ->
    let B' := fst (compress_loop data i B log) in
    (forall k, rank B <= k < rank B' ->
       i <= derivation B' k < i + Z.of_nat (List.length data)) /\
    (forall k k', rank B <= k -> k < k' -> k' < rank B' ->
       derivation B' k < derivation B' k').
Proof.
  induction data as [|x rest IH]; intros i B log HB Hi Hlen; cbn zeta.
  - cbn. split; intros; lia.
  - cbn [compress_loop List.length] in *.
    set (o := add_to_basis B x (u32 i)).
    destruct (add_to_basis_cases B x (u32 i)) as [[_ E]|(T & _ & _ & Hlt & _ & Hd & _)];
      fold o in E || fold o in T, Hd.
    + rewrite E. destruct (IH (i + 1) B (log ++ errs o)) as [R O]; [lia..|].
      split; [|exact O]. intros k Hk. specialize (R k Hk). lia.
    + destruct (entries_after_insert B x (u32 i)) as [E1 _]; [lia | exact T |].
      fold o in E1.
      assert (H1 : 0 <= rank (after o) <= MAX_RANK) by lia.
      destruct (IH (i + 1) (after o) (log ++ errs o)) as [R O]; [lia..|].
      destruct (compress_loop_provenance rest (i + 1) (after o) (log ++ errs o) H1)
        as [K _].
      assert (Hcell : derivation (fst (compress_loop rest (i + 1) (after o)
                                         (log ++ errs o))) (rank B) = i).
      { destruct (K (rank B)) as [_ K2]; [lia|].
        rewrite K2, Hd, store_same. apply u32_small. lia. }
      rewrite E1 in R, O. split.
      * intros k Hk. destruct (Z.eq_dec k (rank B)) as [->|Hne].
        -- rewrite Hcell. lia.
        -- specialize (R k). lia.
      * intros k k' Hk Hkk Hk'. destruct (Z.eq_dec k (rank B)) as [->|Hne].
        -- rewrite Hcell. specialize (R k'). lia.
        -- apply O; lia.
Qed.

(** X6: for an input of at most 2^32 bytes the derivation cells of the
    structure returned are input positions in strictly increasing order. *)
Theorem derivation_increasing (j : Junk) (data : list Z) (k k' : Z) :
  Z.of_nat (List.length data) <= 4294967296 ->
  0 <= k -> k < k' -> k' < rank (fst (canon_compress j data)) ->
  0 <= derivation (fst (canon_compress j data)) k
    < derivation (fst (canon_compress j data)) k'
  /\ derivation (fst (canon_compress j data)) k' < Z.of_nat (List.length data).
Proof.
  intros Hlen Hk Hkk Hk'. unfold canon_compress in *.
  assert (H0 : 0 <= rank (basis_init j) <= MAX_RANK) by (cbn; unfold MAX_RANK; lia).
  destruct (compress_loop_positions data 0 (basis_init j) [] H0) as [R O]; [lia..|].
  change (rank (basis_init j)) with 0 in R, O.
  pose proof (R k). pose proof (R k'). pose proof (O k k'). lia.
Qed.

Lemma derivation_increasing_witness :
  Z.of_nat (List.length [4; 4; 9; 4; 1]) <= 4294967296 /\
  0 <= 1 /\ 1 < 2 /\ 2 < rank (fst (canon_compress junk0 [4; 4; 9; 4; 1])) /\
  0 <= derivation (fst (canon_compress junk0 [4; 4; 9; 4; 1])) 1
    < derivation (fst (canon_compress junk0 [4; 4; 9; 4; 1])) 2
  /\ derivation (fst (canon_compress junk0 [4; 4; 9; 4; 1])) 2
     < Z.of_nat (List.length [4; 4; 9; 4; 1]).
Proof.
  assert (H1 : Z.of_nat (List.length [4; 4; 9; 4; 1]) <= 4294967296) by (cbn; lia).
  assert (H2 : 0 <= 1) by lia.
  assert (H3 : 1 < 2) by lia.
  assert (H4 : 2 < rank (fst (canon_compress junk0 [4; 4; 9; 4; 1]))) by reflexivity.
  repeat (split; [assumption|]).
  exact (derivation_increasing junk0 [4; 4; 9; 4; 1] 1 2 H1 H2 H3 H4).
Defined.

(** ** Error output *)

Lemma errs_below_capacity (B : GF2_Basis) (x pos : Z) :
  rank B < MAX_RANK -> errs (add_to_basis B x pos) = [].
Proof.
  intro Hlt. unfold add_to_basis.
  destruct (in_span x B); [reflexivity|].
  destruct (Z.leb_spec MAX_RANK (rank B)); [lia | reflexivity].
Qed.

Lemma compress_loop_quiet (data : list Z) :
  forall i B log,
    0 <= rank B ->
    rank B + Z.of_nat (List.length data) <= MAX_RANK ->
    snd (compress_loop data i B log) = log.
Proof.
  induction data as [|x rest IH]; intros i B log Hr Hlen; [reflexivity|].
  cbn [compress_loop List.length] in *.
  rewrite (errs_below_capacity B x (u32 i)) by lia. rewrite app_nil_r.
  assert (HB : 0 <= rank B <= MAX_RANK) by lia.
  pose proof (rank_after_insert B x (u32 i) HB).
  assert (rank (after (add_to_basis B x (u32 i))) <= rank B + 1).
  { destruct (add_to_basis_cases B x (u32 i)) as [[_ E]|(T & _)].
    - rewrite E. lia.
    - destruct (entries_after_insert B x (u32 i)) as [E1 _]; [lia | exact T | lia]. }
  apply IH; lia.
Qed.

(** X7: an input of at most 65536 bytes never produces the capacity error:
    [canon_compress] writes nothing to stderr. *)
Theorem short_input_is_quiet (j : Junk) (data : list Z) :
  Z.of_nat (List.length data) <= MAX_RANK ->
  snd (canon_compress j data) = [].
Proof.
  intro Hlen. unfold canon_compress. apply compress_loop_quiet; cbn; lia.
Qed.

Lemma short_input_is_quiet_witness :
  Z.of_nat (List.length [2; 3; 3; 3]) <= MAX_RANK /\
  snd (canon_compress junk0 [2; 3; 3; 3]) = [].
Proof.
  assert (H : Z.of_nat (List.length [2; 3; 3; 3]) <= MAX_RANK)
    by (vm_compute; discriminate).
  split; [exact H | exact (short_input_is_quiet junk0 [2; 3; 3; 3] H)].
Defined.

(** ** Compressing the entries again *)

Lemma for_loop_ext {S : Type} (f g : Z -> S -> S) (n : nat) :
  forall i s,
    (forall k t, i <= k < i + Z.of_nat n -> f k t = g k t) ->
    for_loop n i f s = for_loop n i g s.
Proof.
  induction n as [|n IH]; intros i s H; [reflexivity|].
  cbn [for_loop]. rewrite (H i s) by lia. apply IH. intros k t Hk. apply H. lia.
Qed.

Lemma in_span_same_view (B B' : GF2_Basis) (x : Z) :
  same_view B B' -> in_span x B = in_span x B'.
Proof.
  intros (Hr & Hb & Hs). unfold in_span, reduce. rewrite <- Hr, <- Hs.
  destruct (rank B =? 0); [reflexivity|].
  destruct (span_signature B x =? 0); [reflexivity|].
  f_equal. apply for_loop_ext. intros k t Hk. unfold reduce_step.
  rewrite (Hb k) by lia. reflexivity.
Qed.

Lemma mark_loop_same (B1 B1' : GF2_Basis) (x : Z) (n : nat) :
  forall i s s',
    (forall y, s y = s' y) ->
    (forall k, i <= k < i + Z.of_nat n -> basis B1 k = basis B1' k) ->
    forall y, for_loop n i (mark_step B1 x) s y = for_loop n i (mark_step B1' x) s' y.
Proof.
  induction n as [|n IH]; intros i s s' Hs Hb y; [apply Hs|].
  cbn [for_loop]. apply IH.
  - intro z. unfold mark_step, Mem.store. rewrite (Hb i) by lia.
    destruct (z =? _); [reflexivity | apply Hs].
  - intros k Hk. apply Hb. lia.
Qed.

Lemma add_to_basis_same_view (B B' : GF2_Basis) (x pos pos' : Z) :
  same_view B B' -> 0 <= rank B ->
  ret (add_to_basis B x pos) = ret (add_to_basis B' x pos') /\
  same_view (after (add_to_basis B x pos)) (after (add_to_basis B' x pos')).
Proof.
  intros V Hr0. pose proof (in_span_same_view B B' x V) as Hs.
  pose proof V as (Hr & Hb & Hsig).
  unfold add_to_basis. rewrite <- Hs, <- Hr.
  destruct (in_span x B); [now split|].
  destruct (Z.leb_spec MAX_RANK (rank B)); [now split|].
  cbn [ret after]. split; [reflexivity|].
  assert (U : u32 (rank B + 1) = rank B + 1)
    by (apply u32_small; unfold MAX_RANK in *; lia).
  unfold same_view. cbn [rank basis span_signature]. rewrite U.
  split; [reflexivity|]. split.
  - intros k Hk. unfold Mem.store. destruct (k =? rank B) eqn:E; [reflexivity|].
    apply Z.eqb_neq in E. apply Hb. lia.
  - intro y. apply mark_loop_same.
    + intro z. unfold Mem.store. destruct (z =? x); [reflexivity | apply Hsig].
    + intros k Hk. cbn [basis]. unfold Mem.store.
      destruct (k =? rank B) eqn:E; [reflexivity|]. apply Hb. lia.
Qed.

Lemma compress_loop_replay (data : list Z) :
  forall i B log i' B' log',
    same_view B B' ->
    0 <= rank B <= MAX_RANK ->
    let Bf := fst (compress_loop data i B log) in
    same_view Bf
      (fst (compress_loop
              (Mem.read_from (basis Bf) (rank B) (Z.to_nat (rank Bf - rank B)))
              i' B' log')).
Proof.
  induction data as [|x rest IH]; intros i B log i' B' log' V HB; cbn zeta.
  - cbn [compress_loop fst]. rewrite Z.sub_diag. exact V.
  - cbn [compress_loop].
    set (o := add_to_basis B x (u32 i)).
    destruct (add_to_basis_cases B x (u32 i)) as [[_ E]|(T & _ & _ & Hlt & _)];
      fold o in E || fold o in T.
    + rewrite E. now apply IH.
    + destruct (entries_after_insert B x (u32 i)) as [E1 _]; [lia | exact T |].
      fold o in E1.
      assert (H1 : 0 <= rank (after o) <= MAX_RANK) by lia.
      set (Bf := fst (compress_loop rest (i + 1) (after o) (log ++ errs o))).
      pose proof (compress_loop_rank rest (i + 1) (after o) (log ++ errs o) H1)
        as [Hmono _]. fold Bf in Hmono.
      destruct (compress_loop_provenance rest (i + 1) (after o) (log ++ errs o) H1)
        as [K _]. fold Bf in K.
      assert (Hx : basis Bf (rank B) = x).
      { destruct (K (rank B)) as [K1 _]; [lia|]. rewrite K1.
        destruct (add_to_basis_cases B x (u32 i)) as [[F _]|(_ & _ & _ & _ & Hb & _)];
          fold o in F || fold o in Hb; [congruence|].
        rewrite Hb. apply store_same. }
      replace (Z.to_nat (rank Bf - rank B))
        with (S (Z.to_nat (rank Bf - rank (after o)))) by lia.
      cbn [Mem.read_from compress_loop]. rewrite Hx.
      destruct (add_to_basis_same_view B B' x (u32 i) (u32 i') V (proj1 HB))
        as [_ V1]. fold o in V1.
      replace (rank B + 1) with (rank (after o)) by lia.
      apply (IH (i + 1) (after o) (log ++ errs o)); assumption.
Qed.

(** X8: compressing the entries of a compressed structure gives the same
    entries again; so decompressing after compressing is idempotent, and
    the round trip holds on every sequence that is itself the result of a
    decompression. *)
Theorem decompress_compress_idempotent
    (j j' : Junk) (out0 out1 : Mem.array) (data : list Z) :
  buffer_bytes (canon_decompress out1
    (fst (canon_compress j'
       (buffer_bytes (canon_decompress out0 (fst (canon_compress j data)))))))
  = buffer_bytes (canon_decompress out0 (fst (canon_compress j data))).
Proof.
  rewrite !decompress_bytes. unfold canon_compress.
  assert (H0 : 0 <= rank (basis_init j) <= MAX_RANK) by (cbn; unfold MAX_RANK; lia).
  assert (V0 : same_view (basis_init j) (basis_init j')).
  { unfold same_view. cbn. repeat split; intros; lia || reflexivity. }
  pose proof (compress_loop_replay data 0 (basis_init j) [] 0 (basis_init j') [] V0 H0)
    as V. cbn zeta in V.
  change (rank (basis_init j)) with 0 in V. rewrite Z.sub_0_r in V.
  set (Bf := fst (compress_loop data 0 (basis_init j) [])) in *.
  change (Mem.read_from (basis Bf) 0 (Z.to_nat (rank Bf))) with (entries Bf) in V.
  destruct V as (Vr & Vb & _).
  unfold entries at 1. rewrite <- Vr. unfold entries, Mem.prefix.
  apply read_from_ext. intros k Hk. symmetry. apply Vb.
  pose proof (compress_loop_rank data 0 (basis_init j) [] H0) as [Hm _].
  fold Bf in Hm. lia.
Qed.

(** ** Reading back what was saved *)

Lemma of_le32_le32 (v : Z) : 0 <= v < 4294967296 -> of_le32 (le32 v) = v.
Proof.
  intro Hv. unfold of_le32, le32. cbn [nth].
  Z.div_mod_to_equations. lia.
Qed.

Lemma items32_flat_map (ds : list Z) :
  forall rest,
    Forall (fun d => 0 <= d < 4294967296) ds ->
    items32 (List.length ds) (flat_map le32 ds ++ rest) = ds.
Proof.
  induction ds as [|d ds IH]; intros rest Hds.
  - cbn. destruct rest as [|? [|? [|? [|? ?]]]]; reflexivity.
  - inversion Hds as [|? ? Hd Hrest]; subst.
    cbn [List.length flat_map]. rewrite <- app_assoc.
    change (le32 d ++ flat_map le32 ds ++ rest)
      with (d mod 256 :: (d / 256) mod 256 :: (d / 65536) mod 256
              :: (d / 16777216) mod 256 :: (flat_map le32 ds ++ rest)).
    cbn [items32]. rewrite IH by exact Hrest. f_equal.
    apply (of_le32_le32 d Hd).
Qed.

Lemma store_list_below (vs : list Z) :
  forall a i k, k < i -> store_list a i vs k = a k.
Proof.
  induction vs as [|v vs IH]; intros a i k Hk; [reflexivity|].
  cbn [store_list]. rewrite IH by lia. apply store_other. lia.
Qed.

Lemma read_from_store_list (vs : list Z) :
  forall a i, Mem.read_from (store_list a i vs) i (List.length vs) = vs.
Proof.
  induction vs as [|v vs IH]; intros a i; [reflexivity|].
  cbn [store_list List.length Mem.read_from]. rewrite IH. f_equal.
  rewrite store_list_below by lia. apply store_same.
Qed.

Lemma read_from_store_list_n (vs : list Z) (a : Mem.array) (i : Z) (n : nat) :
  List.length vs = n -> Mem.read_from (store_list a i vs) i n = vs.
Proof. intros <-. apply read_from_store_list. Qed.

Lemma Forall_read_from (P : Z -> Prop) (a : Mem.array) (n : nat) :
  forall i, (forall k, i <= k < i + Z.of_nat n -> P (a k)) ->
            Forall P (Mem.read_from a i n).
Proof.
  induction n as [|n IH]; intros i H; cbn [Mem.read_from]; constructor.
  - apply H. lia.
  - apply IH. intros k Hk. apply H. lia.
Qed.

Lemma firstn_exact (l l' : list Z) (n : nat) :
  List.length l = n -> firstn n (l ++ l') = l.
Proof.
  intros <-. induction l as [|x l IH]; cbn; [reflexivity | now rewrite IH].
Qed.

Lemma skipn_exact (l l' : list Z) (n : nat) :
  List.length l = n -> skipn n (l ++ l') = l'.
Proof. intros <-. induction l as [|x l IH]; cbn; [reflexivity | exact IH]. Qed.

(** What [load_compressed] does with a file that starts with the tag and
    four bytes of rank. *)
Lemma load_compressed_headed (j : Junk) (w : World) (f : string)
    (r : Z) (payload : list Z) :
  files w f = Some (magic ++ le32 r ++ payload) ->
  0 <= r < 4294967296 ->
  load_compressed j w f
  = if (MAX_RANK <? Z.of_nat (List.length (firstn (Z.to_nat r) payload)))
       || (MAX_RANK <? Z.of_nat (List.length
                                   (items32 (Z.to_nat r) (skipn (Z.to_nat r) payload))))
    then LoadUndefined
    else LoadOk (mkBasis
                   (store_list (junk_basis j) 0 (firstn (Z.to_nat r) payload))
                   r
                   (store_list (junk_derivation j) 0
                      (items32 (Z.to_nat r) (skipn (Z.to_nat r) payload)))
                   Mem.zeroed).
Proof.
  intros Hf Hr. unfold load_compressed, fread. rewrite Hf.
  change (firstn 5 (magic ++ le32 r ++ payload)) with magic.
  change (skipn 5 (magic ++ le32 r ++ payload)) with (le32 r ++ payload).
  change (strcmp (magic ++ repeat 0 (6 - List.length magic)) (magic ++ [0]) =? 0)
    with true.
  change (firstn 4 (le32 r ++ payload)) with (le32 r).
  change (skipn 4 (le32 r ++ payload)) with payload.
  cbv beta iota. change (List.length (le32 r) =? 4)%nat with true.
  cbv beta iota. rewrite (of_le32_le32 r Hr). reflexivity.
Qed.

Lemma load_saved_image_tail (j : Junk) (w : World) (f : string) (B : GF2_Basis)
    (extra : list Z) :
  files w f = Some (saved_image B ++ extra) ->
  0 <= rank B <= MAX_RANK ->
  Forall (fun d => 0 <= d < 4294967296) (Mem.prefix (derivation B) (rank B)) ->
  exists B',
    load_compressed j w f = LoadOk B' /\
    rank B' = rank B /\
    entries B' = entries B /\
    Mem.prefix (derivation B') (rank B') = Mem.prefix (derivation B) (rank B) /\
    span_signature B' = Mem.zeroed.
Proof.
  intros Hf HB Hd.
  assert (E : saved_image B ++ extra
              = magic ++ le32 (rank B) ++ entries B
                ++ (flat_map le32 (Mem.prefix (derivation B) (rank B)) ++ extra)).
  { unfold saved_image, fwrite, entries. rewrite app_nil_l, <- !app_assoc.
    reflexivity. }
  rewrite E in Hf.
  assert (Hr : 0 <= rank B < 4294967296) by (unfold MAX_RANK in HB; lia).
  rewrite (load_compressed_headed j w f _ _ Hf Hr).
  assert (Le : List.length (entries B) = Z.to_nat (rank B)) by apply prefix_length.
  assert (Ld : List.length (Mem.prefix (derivation B) (rank B)) = Z.to_nat (rank B))
    by apply prefix_length.
  rewrite (firstn_exact _ _ _ Le), (skipn_exact _ _ _ Le). clear E.
  assert (I : items32 (Z.to_nat (rank B))
                (flat_map le32 (Mem.prefix (derivation B) (rank B)) ++ extra)
              = Mem.prefix (derivation B) (rank B)).
  { rewrite <- Ld at 1. apply (items32_flat_map _ extra Hd). }
  rewrite I, Le, Ld.
  destruct (Z.ltb_spec MAX_RANK (Z.of_nat (Z.to_nat (rank B)))); [lia|].
  cbn [orb]. eexists. split; [reflexivity|]. cbn [rank basis derivation span_signature].
  split; [reflexivity|]. split; [|split; [|reflexivity]].
  - unfold entries at 1. cbn [rank basis]. unfold Mem.prefix at 1.
    apply read_from_store_list_n, Le.
  - unfold Mem.prefix at 1. apply read_from_store_list_n, Ld.
Qed.

Lemma load_saved_image (j : Junk) (w : World) (f : string) (B : GF2_Basis) :
  files w f = Some (saved_image B) ->
  0 <= rank B <= MAX_RANK ->
  Forall (fun d => 0 <= d < 4294967296) (Mem.prefix (derivation B) (rank B)) ->
  exists B',
    load_compressed j w f = LoadOk B' /\
    rank B' = rank B /\
    entries B' = entries B /\
    Mem.prefix (derivation B') (rank B') = Mem.prefix (derivation B) (rank B) /\
    span_signature B' = Mem.zeroed.
Proof.
  intro Hf. apply (load_saved_image_tail j w f B []). now rewrite app_nil_r.
Qed.


(** X9: a structure that was saved is read back with its rank, its entries
    and its derivation cells; the marks of [span_signature] are not in the
    file and come back as zero. *)
Theorem load_after_save (j : Junk) (w : World) (f : string) (B : GF2_Basis) :
  files w f = Some (saved_image B) ->
  0 <= rank B <= MAX_RANK ->
  Forall (fun d => 0 <= d < 4294967296) (Mem.prefix (derivation B) (rank B)) ->
  exists B',
    load_compressed j w f = LoadOk B' /\
    rank B' = rank B /\
    entries B' = entries B /\
    Mem.prefix (derivation B') (rank B') = Mem.prefix (derivation B) (rank B) /\
    span_signature B' = Mem.zeroed.
Proof. apply load_saved_image. Qed.

Lemma load_after_save_witness :
  files packed_world "packed" = Some (saved_image sample_basis) /\
  0 <= rank sample_basis <= MAX_RANK /\
  Forall (fun d => 0 <= d < 4294967296)
         (Mem.prefix (derivation sample_basis) (rank sample_basis)) /\
  exists B',
    load_compressed junk0 packed_world "packed" = LoadOk B' /\
    rank B' = rank sample_basis /\
    entries B' = entries sample_basis /\
    Mem.prefix (derivation B') (rank B')
    = Mem.prefix (derivation sample_basis) (rank sample_basis) /\
    span_signature B' = Mem.zeroed.
Proof.
  assert (Hf : files packed_world "packed" = Some (saved_image sample_basis))
    by reflexivity.
  assert (HB : 0 <= rank sample_basis <= MAX_RANK)
    by (vm_compute; split; discriminate).
  assert (Hd : Forall (fun d => 0 <= d < 4294967296)
                      (Mem.prefix (derivation sample_basis) (rank sample_basis))).
  { change (Mem.prefix (derivation sample_basis) (rank sample_basis)) with [0; 1].
    repeat constructor; lia. }
  repeat (split; [assumption|]).
  exact (load_after_save junk0 packed_world "packed" sample_basis Hf HB Hd).
Defined.

(** ** Runs of the command line *)

Lemma nth_or_default (l : list string) (d : string) :
  (if (3 <? List.length l)%nat then nth 3 l EmptyString else d) = nth 3 l d.
Proof.
  destruct (Nat.ltb_spec 3 (List.length l)).
  - apply nth_indep. lia.
  - symmetry. apply nth_overflow. lia.
Qed.

Lemma main_compress_to (j : Junk) (out0 : Mem.array) (w : World)
    (prog input out : string) (data : list Z) :
  files w input = Some data ->
  main j out0 [prog; "compress"%string; input; out] w
  = Some (0, snd (save_compressed w out (fst (canon_compress j data)))).
Proof.
  intros Hf. unfold main, read_file.
  cbn [List.length Nat.ltb Nat.leb nth].
  change (String.eqb "compress" "compress") with true. cbv iota.
  rewrite Hf. reflexivity.
Qed.

Lemma main_decompress_to (j : Junk) (out0 : Mem.array) (w : World)
    (prog input out : string) (B : GF2_Basis) :
  load_compressed j w input = LoadOk B ->
  rank B <= MAX_RANK ->
  main j out0 [prog; "decompress"%string; input; out] w
  = Some (0, if writable w out then write_file w out (entries B) else w).
Proof.
  intros Hl Hr. unfold main.
  cbn [List.length Nat.ltb Nat.leb nth].
  change (String.eqb "decompress" "compress") with false.
  change (String.eqb "decompress" "decompress") with true. cbv iota.
  rewrite Hl, decompress_bytes.
  destruct (Z.ltb_spec MAX_RANK (rank B)); [lia|].
  destruct (writable w out); reflexivity.
Qed.

Lemma compress_output_saveable (j : Junk) (data : list Z) :
  0 <= rank (fst (canon_compress j data)) <= MAX_RANK /\
  Forall (fun d => 0 <= d < 4294967296)
         (Mem.prefix (derivation (fst (canon_compress j data)))
                     (rank (fst (canon_compress j data)))).
Proof.
  unfold canon_compress.
  assert (H0 : 0 <= rank (basis_init j) <= MAX_RANK) by (cbn; unfold MAX_RANK; lia).
  pose proof (compress_loop_rank data 0 (basis_init j) [] H0) as [Hr _].
  destruct (compress_loop_provenance data 0 (basis_init j) [] H0) as [_ N].
  change (rank (basis_init j)) with 0 in Hr, N.
  split; [lia|]. apply Forall_read_from. intros k Hk.
  destruct (N k) as (p & _ & D & _); [lia|]. rewrite D. unfold u32.
  apply Z.mod_pos_bound. lia.
Qed.

(** X10: compressing a file and then decompressing the saved file, both
    through the command line, exits twice with code 0 and leaves in the
    last file the entries of the structure (the bytes that were
    inserted). *)
Theorem compress_then_decompress (j j' : Junk) (out0 out1 : Mem.array) (w : World)
    (prog input packed out : string) (data : list Z) :
  files w input = Some data ->
  writable w packed = true ->
  writable w out = true ->
  main j out0 [prog; "compress"%string; input; packed] w
  = Some (0, write_file w packed (saved_image (fst (canon_compress j data)))) /\
  exists w2,
    main j' out1 [prog; "decompress"%string; packed; out]
         (write_file w packed (saved_image (fst (canon_compress j data))))
    = Some (0, w2) /\
    files w2 out = Some (entries (fst (canon_compress j data))).
Proof.
  intros Hf Hp Ho. split.
  - rewrite (main_compress_to j out0 w prog input packed data Hf).
    unfold save_compressed. rewrite Hp. reflexivity.
  - set (Bf := fst (canon_compress j data)).
    set (w1 := write_file w packed (saved_image Bf)).
    assert (Hf1 : files w1 packed = Some (saved_image Bf))
      by (cbn; now rewrite String.eqb_refl).
    destruct (compress_output_saveable j data) as [HB Hd]. fold Bf in HB, Hd.
    destruct (load_saved_image j' w1 packed Bf Hf1 HB Hd) as (B' & Hl & Hr & He & _).
    rewrite (main_decompress_to j' out1 w1 prog packed out B' Hl) by lia.
    change (writable w1 out) with (writable w out). rewrite Ho.
    eexists. split; [reflexivity|]. cbn. rewrite String.eqb_refl. now rewrite He.
Qed.

Lemma compress_then_decompress_witness :
  files packed_world "in" = Some [1; 2; 2] /\
  writable packed_world "p" = true /\
  writable packed_world "o" = true /\
  main junk0 Mem.zeroed ["canon"; "compress"; "in"; "p"]%string packed_world
  = Some (0, write_file packed_world "p"
               (saved_image (fst (canon_compress junk0 [1; 2; 2])))) /\
  exists w2,
    main junk0 Mem.zeroed ["canon"; "decompress"; "p"; "o"]%string
         (write_file packed_world "p"
            (saved_image (fst (canon_compress junk0 [1; 2; 2]))))
    = Some (0, w2) /\
    files w2 "o" = Some (entries (fst (canon_compress junk0 [1; 2; 2]))).
Proof.
  assert (Hf : files packed_world "in" = Some [1; 2; 2]) by reflexivity.
  assert (Hp : writable packed_world "p" = true) by reflexivity.
  assert (Ho : writable packed_world "o" = true) by reflexivity.
  repeat (split; [assumption|]).
  exact (compress_then_decompress junk0 junk0 Mem.zeroed Mem.zeroed packed_world
           "canon" "in" "p" "o" [1; 2; 2] Hf Hp Ho).
Defined.

(** X11: [main] exits with 0 or with 1, and a run that exits with 1 leaves
    every file as it was. *)
Theorem failing_run_writes_nothing (j : Junk) (out0 : Mem.array)
    (argv : list string) (w w' : World) (code : Z) :
  main j out0 argv w = Some (code, w') ->
  code = 0 \/ (code = 1 /\ w' = w).
Proof.
  unfold main, read_file. intro H.
  destruct (List.length argv <? 3)%nat; [inversion H; now right|].
  destruct (String.eqb (nth 1 argv EmptyString) "compress").
  - destruct (files w (nth 2 argv EmptyString)); inversion H; [now left | now right].
  - destruct (String.eqb (nth 1 argv EmptyString) "decompress");
      [|inversion H; now right].
    destruct (load_compressed j w (nth 2 argv EmptyString)) as [|B|];
      [inversion H; now right | | discriminate].
    destruct (MAX_RANK <? rank B); [discriminate|].
    destruct (writable w _); inversion H; now left.
Qed.

Lemma failing_run_writes_nothing_witness :
  main junk0 Mem.zeroed ["canon"; "decompress"; "in"; "o"]%string packed_world
  = Some (1, packed_world) /\
  (1 = 0 \/ (1 = 1 /\ packed_world = packed_world)).
Proof.
  assert (H : main junk0 Mem.zeroed ["canon"; "decompress"; "in"; "o"]%string
                   packed_world = Some (1, packed_world)) by reflexivity.
  split; [exact H|].
  exact (failing_run_writes_nothing junk0 Mem.zeroed _ packed_world packed_world 1 H).
Defined.

(** X12: the only name a run of [main] opens for writing is the name of its
    output file (the fourth argument, or output.canon / output.bin): the
    file system after the run is the one before it, or the one before it
    with that one name written. *)
Theorem main_writes_only_output (j : Junk) (out0 : Mem.array)
    (argv : list string) (w w' : World) (code : Z) :
  main j out0 argv w = Some (code, w') ->
  w' = w \/ exists content, w' = write_file w (output_name argv) content.
Proof.
  unfold main, read_file, save_compressed, output_name. intros H.
  destruct (List.length argv <? 3)%nat; [inversion H; now left|].
  rewrite !nth_or_default in H.
  destruct (String.eqb (nth 1 argv EmptyString) "compress").
  - destruct (files w (nth 2 argv EmptyString)); [|inversion H; now left].
    destruct (writable w _); inversion H; subst; [|now left].
    right. eexists. reflexivity.
  - destruct (String.eqb (nth 1 argv EmptyString) "decompress");
      [|inversion H; now left].
    destruct (load_compressed j w (nth 2 argv EmptyString)) as [|B|];
      [inversion H; now left | | discriminate].
    destruct (MAX_RANK <? rank B); [discriminate|].
    destruct (writable w _); inversion H; subst; [|now left].
    right. eexists. reflexivity.
Qed.

Lemma main_writes_only_output_witness :
  main junk0 Mem.zeroed ["canon"; "compress"; "in"]%string packed_world
  = Some (0, write_file packed_world "output.canon"
               (saved_image (fst (canon_compress junk0 [1; 2; 2])))) /\
  (write_file packed_world "output.canon"
     (saved_image (fst (canon_compress junk0 [1; 2; 2]))) = packed_world \/
   exists content,
     write_file packed_world "output.canon"
       (saved_image (fst (canon_compress junk0 [1; 2; 2])))
     = write_file packed_world (output_name ["canon"; "compress"; "in"]%string)
         content).
Proof.
  assert (H : main junk0 Mem.zeroed ["canon"; "compress"; "in"]%string packed_world
              = Some (0, write_file packed_world "output.canon"
                           (saved_image (fst (canon_compress junk0 [1; 2; 2])))))
    by reflexivity.
  split; [exact H|].
  exact (main_writes_only_output junk0 Mem.zeroed _ packed_world _ 0 H).
Defined.

(** X13: when the output file cannot be opened, both commands still exit
    with code 0 and write nothing (for the decompress command: once a
    structure of rank at most [MAX_RANK] has been loaded). *)
Theorem unwritable_output_exits_zero (j : Junk) (out0 : Mem.array) (w : World)
    (prog input packed out : string) (data : list Z) (B : GF2_Basis) :
  files w input = Some data ->
  load_compressed j w packed = LoadOk B ->
  rank B <= MAX_RANK ->
  writable w out = false ->
  main j out0 [prog; "compress"%string; input; out] w = Some (0, w) /\
  main j out0 [prog; "decompress"%string; packed; out] w = Some (0, w).
Proof.
  intros Hf Hl Hr Hw. split.
  - rewrite (main_compress_to j out0 w prog input out data Hf).
    unfold save_compressed. now rewrite Hw.
  - rewrite (main_decompress_to j out0 w prog packed out B Hl Hr). now rewrite Hw.
Qed.

Lemma unwritable_output_exits_zero_witness :
  files packed_world "in" = Some [1; 2; 2] /\
  load_compressed junk0 packed_world "packed"
  = LoadOk (mkBasis (store_list Mem.zeroed 0 [1; 2]) 2
                    (store_list Mem.zeroed 0 [0; 1]) Mem.zeroed) /\
  rank (mkBasis (store_list Mem.zeroed 0 [1; 2]) 2
                (store_list Mem.zeroed 0 [0; 1]) Mem.zeroed) <= MAX_RANK /\
  writable packed_world "locked" = false /\
  main junk0 Mem.zeroed ["canon"; "compress"; "in"; "locked"]%string packed_world
  = Some (0, packed_world) /\
  main junk0 Mem.zeroed ["canon"; "decompress"; "packed"; "locked"]%string packed_world
  = Some (0, packed_world).
Proof.
  assert (Hf : files packed_world "in" = Some [1; 2; 2]) by reflexivity.
  assert (Hl : load_compressed junk0 packed_world "packed"
               = LoadOk (mkBasis (store_list Mem.zeroed 0 [1; 2]) 2
                                 (store_list Mem.zeroed 0 [0; 1]) Mem.zeroed))
    by reflexivity.
  assert (Hr : rank (mkBasis (store_list Mem.zeroed 0 [1; 2]) 2
                             (store_list Mem.zeroed 0 [0; 1]) Mem.zeroed) <= MAX_RANK)
    by (vm_compute; discriminate).
  assert (Hw : writable packed_world "locked" = false) by reflexivity.
  repeat (split; [assumption|]).
  exact (unwritable_output_exits_zero junk0 Mem.zeroed packed_world
           "canon" "in" "packed" "locked" [1; 2; 2] _ Hf Hl Hr Hw).
Defined.

(** ** Files that are not what was saved *)

Lemma store_list_above (vs : list Z) :
  forall a i k, i + Z.of_nat (List.length vs) <= k -> store_list a i vs k = a k.
Proof.
  induction vs as [|v vs IH]; intros a i k Hk; [reflexivity|].
  cbn [store_list List.length] in *. rewrite IH by lia. apply store_other. lia.
Qed.

Lemma read_from_app (a : Mem.array) (n m : nat) :
  forall i, Mem.read_from a i (n + m)
            = Mem.read_from a i n ++ Mem.read_from a (i + Z.of_nat n) m.
Proof.
  induction n as [|n IH]; intro i.
  - cbn. now rewrite Z.add_0_r.
  - cbn [Nat.add Mem.read_from app]. rewrite IH. do 3 f_equal. lia.
Qed.

Lemma items32_nil (n : nat) : items32 n [] = [].
Proof. destruct n; reflexivity. Qed.

(** X14: the rank in the header is trusted.  When the file ends before the
    [rank] basis bytes are complete, [load_compressed] still returns the
    structure with that rank, and the entries that were not in the file are
    whatever the allocated block held. *)
Theorem short_payload_is_padded_with_junk (j : Junk) (w : World) (f : string)
    (r : Z) (payload : list Z) :
  files w f = Some (magic ++ le32 r ++ payload) ->
  0 <= r <= MAX_RANK ->
  Z.of_nat (List.length payload) <= r ->
  exists B,
    load_compressed j w f = LoadOk B /\
    rank B = r /\
    entries B = payload ++ Mem.read_from (junk_basis j)
                             (Z.of_nat (List.length payload))
                             (Z.to_nat r - List.length payload).
Proof.
  intros Hf Hr Hlen.
  assert (Hr' : 0 <= r < 4294967296) by (unfold MAX_RANK in Hr; lia).
  rewrite (load_compressed_headed j w f r payload Hf Hr').
  rewrite firstn_all2 by lia. rewrite skipn_all2 by lia. rewrite items32_nil.
  destruct (Z.ltb_spec MAX_RANK (Z.of_nat (List.length payload))); [lia|].
  cbn [orb List.length Z.of_nat]. change (MAX_RANK <? 0) with false. cbv iota.
  eexists. split; [reflexivity|]. split; [reflexivity|].
  unfold entries, Mem.prefix. cbn [rank basis].
  replace (Z.to_nat r)
    with (List.length payload + (Z.to_nat r - List.length payload))%nat at 1 by lia.
  rewrite read_from_app, read_from_store_list. f_equal.
  apply read_from_ext. intros k Hk. apply store_list_above. lia.
Qed.

Lemma short_payload_is_padded_with_junk_witness :
  files packed_world "cut" = Some (magic ++ le32 3 ++ [7]) /\
  0 <= 3 <= MAX_RANK /\
  Z.of_nat (List.length [7]) <= 3 /\
  exists B,
    load_compressed junk0 packed_world "cut" = LoadOk B /\
    rank B = 3 /\
    entries B = [7] ++ Mem.read_from (junk_basis junk0)
                         (Z.of_nat (List.length [7]))
                         (Z.to_nat 3 - List.length [7]).
Proof.
  assert (Hf : files packed_world "cut" = Some (magic ++ le32 3 ++ [7]))
    by reflexivity.
  assert (Hr : 0 <= 3 <= MAX_RANK) by (unfold MAX_RANK; lia).
  assert (Hlen : Z.of_nat (List.length [7]) <= 3) by (cbn; lia).
  repeat (split; [assumption|]).
  exact (short_payload_is_padded_with_junk junk0 packed_world "cut" 3 [7] Hf Hr Hlen).
Defined.

(** X15: bytes that follow the saved structure in the file are not looked
    at: the structure read back is the one that was saved. *)
Theorem trailing_bytes_are_ignored (j : Junk) (w : World) (f : string)
    (B : GF2_Basis) (extra : list Z) :
  files w f = Some (saved_image B ++ extra) ->
  0 <= rank B <= MAX_RANK ->
  Forall (fun d => 0 <= d < 4294967296) (Mem.prefix (derivation B) (rank B)) ->
  exists B',
    load_compressed j w f = LoadOk B' /\
    rank B' = rank B /\
    entries B' = entries B /\
    Mem.prefix (derivation B') (rank B') = Mem.prefix (derivation B) (rank B).
Proof.
  intros Hf HB Hd.
  destruct (load_saved_image_tail j w f B extra Hf HB Hd) as (B' & H1 & H2 & H3 & H4 & _).
  exists B'. auto.
Qed.

Lemma trailing_bytes_are_ignored_witness :
  files packed_world "long" = Some (saved_image sample_basis ++ [9; 9; 9]) /\
  0 <= rank sample_basis <= MAX_RANK /\
  Forall (fun d => 0 <= d < 4294967296)
         (Mem.prefix (derivation sample_basis) (rank sample_basis)) /\
  exists B',
    load_compressed junk0 packed_world "long" = LoadOk B' /\
    rank B' = rank sample_basis /\
    entries B' = entries sample_basis /\
    Mem.prefix (derivation B') (rank B')
    = Mem.prefix (derivation sample_basis) (rank sample_basis).
Proof.
  assert (Hf : files packed_world "long" = Some (saved_image sample_basis ++ [9; 9; 9]))
    by reflexivity.
  assert (HB : 0 <= rank sample_basis <= MAX_RANK)
    by (vm_compute; split; discriminate).
  assert (Hd : Forall (fun d => 0 <= d < 4294967296)
                      (Mem.prefix (derivation sample_basis) (rank sample_basis))).
  { change (Mem.prefix (derivation sample_basis) (rank sample_basis)) with [0; 1].
    repeat constructor; lia. }
  repeat (split; [assumption|]).
  exact (trailing_bytes_are_ignored junk0 packed_world "long" sample_basis [9; 9; 9]
           Hf HB Hd).
Defined.

(** X16: [load_compressed] returns NULL exactly when the file cannot be
    opened or its first five bytes are not the tag. *)
Theorem load_null_iff (j : Junk) (w : World) (f : string) :
  load_compressed j w f = LoadNull <->
  (files w f = None \/
   exists bytes, files w f = Some bytes /\ firstn 5 bytes <> magic).
Proof.
  split.
  - intro H. destruct (files w f) as [bytes|] eqn:Hf; [right | now left].
    exists bytes. split; [reflexivity|]. intro Hm.
    unfold load_compressed, fread in H. rewrite Hf, Hm in H.
    change (strcmp (magic ++ repeat 0 (6 - List.length magic)) (magic ++ [0]) =? 0)
      with true in H.
    cbv beta iota in H. cbn [negb] in H.
    destruct (_ && _); [discriminate|].
    destruct (_ || _); discriminate.
  - intros [Hf | (bytes & Hf & Hm)].
    + unfold load_compressed. now rewrite Hf.
    + now apply (load_bad_magic j w f bytes).
Qed.

(** X17: when the file named by the third argument cannot be opened, [main]
    exits with code 1 and writes nothing, whatever the command. *)
Theorem missing_input_exits_one (j : Junk) (out0 : Mem.array)
    (argv : list string) (w : World) :
  files w (nth 2 argv EmptyString) = None ->
  main j out0 argv w = Some (1, w).
Proof.
  intro Hf. unfold main, read_file, load_compressed. rewrite Hf.
  destruct (List.length argv <? 3)%nat; [reflexivity|].
  destruct (String.eqb _ "compress"); [reflexivity|].
  destruct (String.eqb _ "decompress"); reflexivity.
Qed.

Lemma missing_input_exits_one_witness :
  files packed_world (nth 2 ["canon"; "compress"; "nowhere"]%string EmptyString) = None /\
  main junk0 Mem.zeroed ["canon"; "compress"; "nowhere"]%string packed_world
  = Some (1, packed_world).
Proof.
  assert (Hf : files packed_world
                 (nth 2 ["canon"; "compress"; "nowhere"]%string EmptyString) = None)
    by reflexivity.
  split; [exact Hf|].
  exact (missing_input_exits_one junk0 Mem.zeroed _ packed_world Hf).
Defined.

(** ** Constant input *)

Lemma highest_bit_none (x : Z) : is_byte x -> highest_bit x < 0 -> x = 0.
Proof.
  intros [Hlo Hhi] Hneg.
  pose proof highest_bit_table as T. rewrite forallb_forall in T.
  specialize (T (Z.to_nat x)). rewrite Z2Nat.id in T by exact Hlo.
  assert (E : highest_bit x = (if x =? 0 then -1 else Z.log2 x))
    by (apply Z.eqb_eq, T, in_seq; lia).
  destruct (Z.eqb_spec x 0) as [|Hne]; [assumption|].
  pose proof (Z.log2_nonneg x). lia.
Qed.

Lemma reduce_by_itself (B : GF2_Basis) (x : Z) :
  is_byte x -> rank B = 1 -> basis B 0 = x -> reduce B x = 0.
Proof.
  intros Hx Hr Hb. unfold reduce. rewrite Hr. change (Z.to_nat 1) with 1%nat.
  cbn [for_loop]. unfold reduce_step. rewrite Hb, Z.eqb_refl. cbn [andb].
  destruct (Z.leb_spec 0 (highest_bit x)).
  - rewrite Z.lxor_nilpotent. reflexivity.
  - now apply highest_bit_none.
Qed.

Lemma compress_loop_constant (x : Z) (n : nat) :
  forall i B log,
    is_byte x -> rank B = 1 -> basis B 0 = x -> span_signature B x = 1 ->
    compress_loop (repeat x n) i B log = (B, log).
Proof.
  induction n as [|n IH]; intros i B log Hx Hr Hb Hs; [reflexivity|].
  cbn [repeat compress_loop].
  assert (E : add_to_basis B x (u32 i) = mkOutcome false B []).
  { unfold add_to_basis, in_span.
    rewrite Hr, Hs, (reduce_by_itself B x Hx Hr Hb). reflexivity. }
  rewrite E. cbn [after errs]. rewrite app_nil_r. now apply IH.
Qed.

(** X18: an input that repeats one byte, whatever the byte, is compressed
    to rank 1 with that byte as the only entry. *)
Theorem constant_input_has_rank_one (j : Junk) (x : Z) (n : nat) :
  is_byte x ->
  rank (fst (canon_compress j (repeat x (S n)))) = 1 /\
  entries (fst (canon_compress j (repeat x (S n)))) = [x].
Proof.
  intro Hx. unfold canon_compress. cbn [repeat compress_loop].
  set (B1 := after (add_to_basis (basis_init j) x (u32 0))).
  assert (Hs : span_signature B1 x = 1).
  { change (span_signature B1 x) with (Mem.store Mem.zeroed x 1 x).
    apply store_same. }
  rewrite (compress_loop_constant x n (0 + 1) B1 _ Hx eq_refl eq_refl Hs).
  split; reflexivity.
Qed.

Lemma constant_input_has_rank_one_witness :
  is_byte 200 /\
  rank (fst (canon_compress junk0 (repeat 200 (S 4)))) = 1 /\
  entries (fst (canon_compress junk0 (repeat 200 (S 4)))) = [200].
Proof.
  assert (Hx : is_byte 200) by (unfold is_byte; lia).
  split; [exact Hx | exact (constant_input_has_rank_one junk0 200 4 Hx)].
Defined.

(** ** A file that holds the tag and nothing else *)

(** X20: a file that consists of the five bytes of the tag is accepted:
    the read of the rank obtains nothing, the structure returned is the
    freshly initialised one of rank 0, and the decompress command writes an
    empty output file and exits with code 0. *)
Theorem tag_only_file_is_rank_zero (j : Junk) (out0 : Mem.array) (w : World)
    (prog f out : string) :
  files w f = Some magic ->
  writable w out = true ->
  load_compressed j w f = LoadOk (basis_init j) /\
  main j out0 [prog; "decompress"%string; f; out] w = Some (0, write_file w out []).
Proof.
  intros Hf Hw.
  assert (Hl : load_compressed j w f = LoadOk (basis_init j)).
  { unfold load_compressed, fread. rewrite Hf. reflexivity. }
  split; [exact Hl|].
  rewrite (main_decompress_to j out0 w prog f out (basis_init j) Hl)
    by (cbn; unfold MAX_RANK; lia).
  rewrite Hw. reflexivity.
Qed.

Lemma tag_only_file_is_rank_zero_witness :
  files packed_world "tag" = Some magic /\
  writable packed_world "o" = true /\
  load_compressed junk0 packed_world "tag" = LoadOk (basis_init junk0) /\
  main junk0 Mem.zeroed ["canon"; "decompress"; "tag"; "o"]%string packed_world
  = Some (0, write_file packed_world "o" []).
Proof.
  assert (Hf : files packed_world "tag" = Some magic) by reflexivity.
  assert (Hw : writable packed_world "o" = true) by reflexivity.
  split; [exact Hf|]. split; [exact Hw|].
  exact (tag_only_file_is_rank_zero junk0 Mem.zeroed packed_world "canon" "tag" "o"
           Hf Hw).
Defined.
